(** * Session-scoped transport multiplexer of [createStreamableHTTPServer]

    Shallow embedding of [src/lib/streamable-http.ts]: the [transports]
    object, the four Express handlers and the two callbacks the module hands
    to [StreamableHTTPServerTransport].  The SDK transport and the protocol
    engine are external; they are modelled as an environment that decides, per
    call of [handleRequest], whether a session id is minted and whether the
    transport closes. *)

From Stdlib Require Import Ascii String.
From stdpp Require Import base numbers strings list gmap fin_maps.

Open Scope string_scope.

(** ** JavaScript values that reach the handlers *)

(** A parsed JSON document, as [express.json()] leaves it in [req.body] and
    as [res.json] serialises it (object fields in insertion order). *)
#[warnings="-register-all"]
Inductive json : Type :=
| JNull
| JBool (b : bool)
| JNum (n : Z)
| JStr (s : string)
| JArr (items : list json)
| JObj (fields : list (string * json)).

(** ToBoolean on a string: only the empty string is falsy. *)
Definition truthy_string (s : string) : bool := negb (String.eqb s "").

(** ToBoolean on a JSON value. *)
Definition truthy (v : json) : bool :=
  match v with
  | JNull => false
  | JBool b => b
  | JNum n => negb (n =? 0)%Z
  | JStr s => truthy_string s
  | JArr _ | JObj _ => true
  end.

(** Own property read on a parsed object; when a key is repeated in the
    document [JSON.parse] keeps the last occurrence. *)
Fixpoint get_field (name : string) (fields : list (string * json)) : option json :=
  match fields with
  | [] => None
  | (k, v) :: rest =>
      match get_field name rest with
      | Some w => Some w
      | None => if String.eqb k name then Some v else None
      end
  end.

(** [v.method]: [None] is [undefined].  Neither [Object.prototype] nor the
    array, string, number and boolean prototypes have a [method] member. *)
Definition prop_method (v : json) : option json :=
  match v with
  | JObj fields => get_field "method" fields
  | _ => None
  end.

(** [req.body && req.body.method === 'initialize'] (line 115). *)
Definition is_initialize (body : option json) : bool :=
  match body with
  | None => false
  | Some b =>
      truthy b &&
      match prop_method b with
      | Some (JStr m) => String.eqb m "initialize"
      | _ => false
      end
  end.

(** ** The [transports] object *)

(** Transports are objects with identity; [tid] is the reference. *)
Abbreviation tid := nat (only parsing).

(** [transports] is created by the literal [{}] (line 90), so reads that miss
    the own properties continue in [Object.prototype]. *)
Definition object_prototype_names : list string :=
  [ "constructor"; "__defineGetter__"; "__defineSetter__"; "hasOwnProperty";
    "__lookupGetter__"; "__lookupSetter__"; "isPrototypeOf";
    "propertyIsEnumerable"; "toString"; "valueOf"; "__proto__";
    "toLocaleString" ].

(** What [transports[k]] evaluates to when it is not [undefined]. *)
Inductive slot : Type :=
| Own (t : tid)             (* a transport stored under [k] *)
| Inherited (name : string). (* a member of [Object.prototype] *)

(** [transports[k]]; [None] is [undefined].  Every [slot] is truthy: it is
    a transport object, a built-in function or the prototype object. *)
Definition obj_get (o : gmap string tid) (k : string) : option slot :=
  match o !! k with
  | Some t => Some (Own t)
  | None =>
      if bool_decide (k ∈ object_prototype_names)
      then Some (Inherited k) else None
  end.

(** [Object.keys(o).length]: own enumerable properties only. *)
Definition obj_keys_length (o : gmap string tid) : nat := size o.

(** ** Transports and the system state *)

(** The part of a [StreamableHTTPServerTransport] the module observes:
    [sessionId] is read by the close handler (line 130); [closed] records
    that the SDK has closed the transport. *)
Record transport : Type := Transport {
  sessionId : option string;
  closed : bool
}.

Record state : Type := State {
  transports : gmap string tid;
  heap : list transport
}.

Definition init : state := State ∅ [].

(** ** Requests and responses *)

Record request : Type := Request {
  mcp_session_id : option string; (* [req.headers['mcp-session-id']] *)
  body : option json              (* [req.body] *)
}.

Inductive payload : Type :=
| SendJson (j : json)     (* [res.json(j)] *)
| SendText (s : string).  (* [res.send(s)] *)

Record response : Type := Response {
  status : Z;
  sent : payload
}.

(** How a handler invocation ends. *)
Inductive outcome : Type :=
| Responded (r : response)
    (* the handler wrote the response itself *)
| Delegated (t : tid) (set_headers : list (string * string))
    (* [transport.handleRequest] writes the response; [set_headers] are the
       [res.setHeader] calls this module made on it *)
| Threw.
    (* [TypeError]: [transport.handleRequest] is not a function *)

(** Lines 139-146. *)
Definition bad_request : response :=
  Response 400
    (SendJson (JObj
       [ ("jsonrpc", JStr "2.0");
         ("error", JObj [ ("code", JNum (-32000));
                          ("message", JStr "Bad Request: No valid session ID provided") ]);
         ("id", JNull) ])).

(** Line 161. *)
Definition invalid_session : response :=
  Response 400 (SendText "Invalid or missing session ID").

(** ** The callbacks installed on a new transport *)

(** [onsessioninitialized] (lines 119-125): [transports[sessionId] = transport]
    and [res.setHeader('mcp-session-id', sessionId)] on the response of the
    request that created the transport.  The key is always an output of
    [randomUUID], never [__proto__]. *)
Definition onsessioninitialized (t : tid) (sid : string) (s : state)
  : state * list (string * string) :=
  (State (<[sid := t]> (transports s)) (heap s), [("mcp-session-id", sid)]).

(** [transport.onclose] (lines 129-133). *)
Definition onclose (t : tid) (s : state) : state :=
  match heap s !! t with
  | Some T =>
      match sessionId T with
      | Some sid =>
          if truthy_string sid
          then State (delete sid (transports s)) (heap s)
          else s
      | None => s
      end
  | None => s
  end.

(** ** The SDK transport, as far as it drives the callbacks *)

Inductive method : Type := POST | GET | DELETE.

(** What the environment decides for one call of [handleRequest]:
    [minted] is the value [sessionIdGenerator] returned if the SDK accepted
    an initialize message, [closes] whether the transport closed while the
    request was handled (termination request, shutdown by the engine). *)
Record sdk_result : Type := SdkResult {
  minted : option string;
  closes : bool
}.

(** Initialisation: the SDK refuses to initialise a transport twice; it
    assigns [sessionId] and then calls [onsessioninitialized]. *)
Definition sdk_initialize (t : tid) (sid : string) (s : state)
  : state * list (string * string) :=
  match heap s !! t with
  | Some T =>
      match sessionId T with
      | None =>
          onsessioninitialized t sid
            (State (transports s) (<[t := Transport (Some sid) (closed T)]> (heap s)))
      | Some _ => (s, [])
      end
  | None => (s, [])
  end.

(** [transport.close()]: marks the transport closed and calls [onclose]
    ([server.connect] wraps the handler installed at line 129, it does not
    replace it). *)
Definition sdk_close (t : tid) (s : state) : state :=
  match heap s !! t with
  | Some T =>
      onclose t (State (transports s) (<[t := Transport (sessionId T) true]> (heap s)))
  | None => s
  end.

(** [transport.handleRequest(req, res, ...)]: only a POST can initialise. *)
Definition handleRequest (m : method) (t : tid) (o : sdk_result) (s : state)
  : state * outcome :=
  let '(s1, hs) :=
    match m, minted o with
    | POST, Some sid => sdk_initialize t sid s
    | _, _ => (s, [])
    end in
  ((if closes o then sdk_close t s1 else s1), Delegated t hs).

(** ** The handlers *)

(** The value of a [string | undefined] when it is truthy. *)
Definition if_truthy (h : option string) : option string :=
  match h with
  | Some sid => if truthy_string sid then Some sid else None
  | None => None
  end.

(** [new StreamableHTTPServerTransport(...)] (line 117): a fresh object
    without session id; its reference is the next free index.
    [server.connect(transport)] (line 136) hands the object to the protocol
    engine; the engine's own state is external and not part of [state]. *)
Definition new_transport (s : state) : tid * state :=
  (length (heap s), State (transports s) (heap s ++ [Transport None false])).

(** [app.post('/mcp', ...)] (lines 107-151). *)
Definition post_mcp (req : request) (o : sdk_result) (s : state) : state * outcome :=
  match if_truthy (mcp_session_id req) with
  | Some sid =>
      match obj_get (transports s) sid with
      | Some (Own t) => handleRequest POST t o s
      | Some (Inherited _) => (s, Threw)
      | None => (s, Responded bad_request)
      end
  | None =>
      if is_initialize (body req) then
        let '(t, s1) := new_transport s in
        handleRequest POST t o s1
      else (s, Responded bad_request)
  end.

(** [handleSessionRequest] (lines 157-168), registered for GET and DELETE. *)
Definition handleSessionRequest (m : method) (req : request) (o : sdk_result)
  (s : state) : state * outcome :=
  match if_truthy (mcp_session_id req) with
  | Some sid =>
      match obj_get (transports s) sid with
      | Some (Own t) => handleRequest m t o s
      | Some (Inherited _) => (s, Threw)
      | None => (s, Responded invalid_session)
      end
  | None => (s, Responded invalid_session)
  end.

(** The arguments of [createStreamableHTTPServer] the health report shows. *)
Record config : Type := Config {
  serverName : string;
  serverVersion : string
}.

(** [app.get('/health', ...)] (lines 93-101); [now] is
    [new Date().toISOString()]. *)
Definition health (cfg : config) (req : request) (now : string) (s : state) : response :=
  Response 200
    (SendJson (JObj
       [ ("status", JStr "healthy");
         ("timestamp", JStr now);
         ("activeSessions", JNum (Z.of_nat (obj_keys_length (transports s))));
         ("serverName", JStr (serverName cfg));
         ("serverVersion", JStr (serverVersion cfg)) ])).

(** ** The server as a transition system *)

(** [randomUUID()] returns a version 4 UUID in its canonical text form:
    36 characters, hyphens at offsets 8, 13, 18 and 23, lower-case
    hexadecimal digits elsewhere, version digit 4 and variant 8..b. *)
Definition is_hex (c : ascii) : bool :=
  let n := nat_of_ascii c in
  ((48 <=? n)%nat && (n <=? 57)%nat) || ((97 <=? n)%nat && (n <=? 102)%nat).

Definition uuid_char (i : nat) (c : ascii) : bool :=
  if bool_decide (i ∈ [8; 13; 18; 23]) then Ascii.eqb c "-"
  else if (i =? 14)%nat then Ascii.eqb c "4"
  else if (i =? 19)%nat then bool_decide (c ∈ ["8"; "9"; "a"; "b"]%char)
  else is_hex c.

Fixpoint uuid_from (i : nat) (s : string) : bool :=
  match s with
  | EmptyString => (i =? 36)%nat
  | String c rest => uuid_char i c && uuid_from (S i) rest
  end.

Definition uuid_shaped (s : string) : bool := uuid_from 0 s.

(** No transport created so far holds [sid]: [randomUUID] does not repeat
    itself (128-bit values, 122 of them random). *)
Definition fresh (sid : string) (s : state) : bool :=
  forallb (λ T, negb (bool_decide (sessionId T = Some sid))) (heap s).

Definition mint_ok (o : sdk_result) (s : state) : bool :=
  match minted o with
  | Some sid => uuid_shaped sid && fresh sid s
  | None => true
  end.

(** What can happen to the server: the four routes, and a transport closed
    by the engine outside any request of its session. *)
Inductive label : Type :=
| PostMcp (req : request) (o : sdk_result)
| GetMcp (req : request) (o : sdk_result)
| DeleteMcp (req : request) (o : sdk_result)
| GetHealth (req : request) (now : string)
| EngineClose (t : tid).

Definition label_ok (l : label) (s : state) : bool :=
  match l with
  | PostMcp _ o | GetMcp _ o | DeleteMcp _ o => mint_ok o s
  | GetHealth _ _ | EngineClose _ => true
  end.

(** [None] for the outcome: no HTTP exchange took place. *)
Definition exec (cfg : config) (l : label) (s : state) : state * option outcome :=
  match l with
  | PostMcp req o => let '(s', r) := post_mcp req o s in (s', Some r)
  | GetMcp req o => let '(s', r) := handleSessionRequest GET req o s in (s', Some r)
  | DeleteMcp req o => let '(s', r) := handleSessionRequest DELETE req o s in (s', Some r)
  | GetHealth req now => (s, Some (Responded (health cfg req now s)))
  | EngineClose t => (sdk_close t s, None)
  end.

(** Histories, most recent event first. *)
Definition event : Type := label * option outcome.

Inductive run (cfg : config) : list event → state → Prop :=
| run_init : run cfg [] init
| run_step tr s l :
    run cfg tr s →
    label_ok l s = true →
    run cfg ((l, (exec cfg l s).2) :: tr) (exec cfg l s).1.

(** [res.getHeader(name)] after the calls [hs] of [res.setHeader], oldest
    first: a later call replaces an earlier one. *)
Definition header_value (name : string) (hs : list (string * string)) : option string :=
  snd <$> last (filter (λ h, h.1 = name) hs).

(** The [mcp-session-id] value this module put on a response. *)
Definition outcome_header (out : outcome) : option string :=
  match out with
  | Delegated _ hs => header_value "mcp-session-id" hs
  | Responded _ | Threw => None
  end.

Definition header_set (e : event) : option string :=
  match e.2 with
  | Some out => outcome_header out
  | None => None
  end.

(** How many responses of a history were given the header value [sid]. *)
Definition times_set (sid : string) (tr : list event) : nat :=
  length (filter (λ e, header_set e = Some sid) tr).

(** The session id a request presents, if any. *)
Definition carried (l : label) : option string :=
  match l with
  | PostMcp req _ | GetMcp req _ | DeleteMcp req _ | GetHealth req _ =>
      if_truthy (mcp_session_id req)
  | EngineClose _ => None
  end.

(** A transport is bound when it has a session id and is not closed. *)
Definition bound (T : transport) : bool :=
  bool_decide (is_Some (sessionId T)) && negb (closed T).

(** [heap] census of bound transports. *)
Definition count_bound (h : list transport) : nat := length (List.filter bound h).

(** The consistency the registry and the transports keep. *)
Record consistent (s : state) : Prop := Consistent {
  cons_registry : ∀ k t,
    transports s !! k = Some t ↔
    ∃ T, heap s !! t = Some T ∧ sessionId T = Some k ∧ closed T = false;
  cons_unique : ∀ t1 t2 T1 T2 k,
    heap s !! t1 = Some T1 → heap s !! t2 = Some T2 →
    sessionId T1 = Some k → sessionId T2 = Some k → t1 = t2;
  cons_uuid : ∀ t T k,
    heap s !! t = Some T → sessionId T = Some k → uuid_shaped k = true;
  cons_count : size (transports s) = count_bound (heap s)
}.

(** [t] holds session id [sid] and has been closed. *)
Definition closed_with (s : state) (t : tid) (sid : string) : Prop :=
  ∃ T, heap s !! t = Some T ∧ sessionId T = Some sid ∧ closed T = true.

(** Some transport created so far holds [sid]. *)
Definition known (s : state) (sid : string) : Prop :=
  ∃ t T, heap s !! t = Some T ∧ sessionId T = Some sid.

(** [later cfg s s']: the server can get from [s] to [s']. *)
Inductive later (cfg : config) (s : state) : state → Prop :=
| later_refl : later cfg s s
| later_step s' l :
    later cfg s s' → label_ok l s' = true → later cfg s (exec cfg l s').1.

(** The [mcp-session-id] header the SDK transport writes on [res] itself:
    when it answers a POST that carries a JSON-RPC request, or opens the
    event stream of a GET, it passes its [sessionId], if it has one, to
    [res.writeHead]; the answer to a DELETE, a 202 and an error response
    carry none.  [answers] is the environment's choice between the two. *)
Definition sdk_header (m : method) (answers : bool) (T : transport) : option string :=
  match m with
  | POST | GET => if answers then sessionId T else None
  | DELETE => None
  end.

(** The [mcp-session-id] header of a response as it leaves the server, [s']
    being the state once the request is handled: a header passed to
    [res.writeHead] takes precedence over one set with [res.setHeader]. *)
Definition wire_header (m : method) (answers : bool) (s' : state) (out : outcome)
  : option string :=
  match out with
  | Delegated t hs =>
      match heap s' !! t ≫= sdk_header m answers with
      | Some v => Some v
      | None => header_value "mcp-session-id" hs
      end
  | Responded _ | Threw => None
  end.

(** [t] holds session id [sid], closed or not. *)
Definition holds (s : state) (t : tid) (sid : string) : Prop :=
  ∃ T, heap s !! t = Some T ∧ sessionId T = Some sid.

(** The port handed to [app.listen] (line 175): [process.env.PORT || port].
    An environment variable is a string and is passed on as it is. *)
Inductive port_value : Type :=
| PortEnv (v : string)
| PortDefault (port : Z).

Definition listen_port (env_PORT : option string) (port : Z) : port_value :=
  match env_PORT with
  | Some v => if truthy_string v then PortEnv v else PortDefault port
  | None => PortDefault port
  end.

(** Concrete data for the examples. *)
Definition a_uuid : string := "123e4567-e89b-42d3-a456-426614174000".
Definition b_uuid : string := "0f8fad5b-d9cb-469f-a165-70867728950e".
Definition cfg0 : config := Config "demo" "1.0.0".
Definition initialize_body : json :=
  JObj [("jsonrpc", JStr "2.0"); ("id", JNum 1); ("method", JStr "initialize")].
Definition ping_body : json :=
  JObj [("jsonrpc", JStr "2.0"); ("id", JNum 2); ("method", JStr "ping")].

(** A client opens a session, which is given [a_uuid], and later ends it. *)
Definition open_a : label :=
  PostMcp (Request None (Some initialize_body)) (SdkResult (Some a_uuid) false).
Definition end_a : label :=
  DeleteMcp (Request (Some a_uuid) None) (SdkResult None true).

Definition s_open : state := (exec cfg0 open_a init).1.
Definition s_ended : state := (exec cfg0 end_a s_open).1.
Definition tr_open : list event := [(open_a, (exec cfg0 open_a init).2)].
Definition tr_ended : list event := (end_a, (exec cfg0 end_a s_open).2) :: tr_open.

(** * Properties *)

(** ** UUIDs as property names *)

Lemma uuid_from_length i s : uuid_from i s = true → i + String.length s = 36.
Proof.
  revert i. induction s as [|c s IH]; intros i; simpl.
  - intros H%Nat.eqb_eq. lia.
  - intros [_ H]%andb_true_iff. apply IH in H. lia.
Qed.

Lemma uuid_shaped_length s : uuid_shaped s = true → String.length s = 36.
Proof. intros H. apply (uuid_from_length 0 s H). Qed.

Lemma uuid_shaped_truthy s : uuid_shaped s = true → truthy_string s = true.
Proof. intros H%uuid_shaped_length. by destruct s. Qed.

Lemma uuid_shaped_not_inherited s :
  uuid_shaped s = true → s ∉ object_prototype_names.
Proof.
  intros H%uuid_shaped_length Hin.
  assert (String.length s ∈ String.length <$> object_prototype_names) as Hl
    by (by apply list_elem_of_fmap_2).
  rewrite H in Hl. vm_compute in Hl.
  repeat (apply elem_of_cons in Hl as [Hl|Hl]; [discriminate Hl|]).
  by apply elem_of_nil in Hl.
Qed.

Lemma if_truthy_Some h sid : if_truthy h = Some sid ↔ h = Some sid ∧ sid ≠ "".
Proof.
  unfold if_truthy, truthy_string. destruct h as [x|].
  - destruct (String.eqb_spec x ""); simpl; split.
    + discriminate.
    + intros [[= <-] ?]. contradiction.
    + intros [= <-]. done.
    + by intros [-> _].
  - split; [discriminate|]. by intros [? _].
Qed.

Lemma if_truthy_None h : if_truthy h = None ↔ h = None ∨ h = Some "".
Proof.
  unfold if_truthy, truthy_string. destruct h as [x|].
  - destruct (String.eqb_spec x "") as [->|Hne]; simpl; split.
    + by right.
    + done.
    + discriminate.
    + intros [?|[= ->]]; [discriminate|contradiction].
  - split; [by left|done].
Qed.

Lemma if_truthy_uuid sid : uuid_shaped sid = true → if_truthy (Some sid) = Some sid.
Proof. intros H. simpl. by rewrite uuid_shaped_truthy. Qed.

Lemma obj_get_own o k t : o !! k = Some t → obj_get o k = Some (Own t).
Proof. unfold obj_get. by intros ->. Qed.

Lemma obj_get_uuid o k : uuid_shaped k = true → obj_get o k = Own <$> o !! k.
Proof.
  intros H. unfold obj_get. destruct (o !! k); [done|].
  by rewrite bool_decide_eq_false_2; [|apply uuid_shaped_not_inherited].
Qed.

Lemma obj_get_None o k :
  obj_get o k = None ↔ o !! k = None ∧ k ∉ object_prototype_names.
Proof.
  unfold obj_get. destruct (o !! k).
  - split; [discriminate|]. by intros [? _].
  - case_bool_decide; split.
    + discriminate.
    + intros [_ ?]. contradiction.
    + done.
    + done.
Qed.

Lemma fresh_spec sid s :
  fresh sid s = true ↔ ∀ t T, heap s !! t = Some T → sessionId T ≠ Some sid.
Proof.
  unfold fresh. rewrite forallb_forall. split.
  - intros H t T Ht. apply list_elem_of_lookup_2, list_elem_of_In, H in Ht.
    by apply negb_true_iff, bool_decide_eq_false in Ht.
  - intros H T [t Ht]%list_elem_of_In%list_elem_of_lookup_1.
    apply negb_true_iff, bool_decide_eq_false. eauto.
Qed.

(** ** The census of bound transports *)

Lemma bound_spec T : bound T = true ↔ is_Some (sessionId T) ∧ closed T = false.
Proof.
  unfold bound. rewrite andb_true_iff, bool_decide_eq_true, negb_true_iff. done.
Qed.

Lemma bound_None T : sessionId T = None → bound T = false.
Proof.
  intros H. apply not_true_is_false. rewrite bound_spec, H.
  intros [[? ?] _]. done.
Qed.

Lemma bound_closed T : closed T = true → bound T = false.
Proof.
  intros H. apply not_true_is_false. rewrite bound_spec, H. by intros [_ ?].
Qed.

Lemma bound_Some_open T sid :
  sessionId T = Some sid → closed T = false → bound T = true.
Proof. intros H1 H2. apply bound_spec. rewrite H1. eauto. Qed.

Lemma count_bound_snoc h T :
  count_bound (h ++ [T]) = count_bound h + (if bound T then 1 else 0).
Proof.
  unfold count_bound. rewrite List.filter_app, length_app. simpl.
  by destruct (bound T).
Qed.

Lemma count_bound_insert h t T T' :
  h !! t = Some T →
  count_bound (<[t:=T']> h) + (if bound T then 1 else 0)
  = count_bound h + (if bound T' then 1 else 0).
Proof.
  revert t. induction h as [|x h IH]; intros [|t] Ht; simplify_eq/=.
  - unfold count_bound. simpl. destruct (bound T), (bound T'); simpl; lia.
  - specialize (IH _ Ht). unfold count_bound in *. simpl.
    destruct (bound x); simpl; lia.
Qed.

(** ** Consistency is kept by every primitive *)

Lemma consistent_init : consistent init.
Proof.
  split; simpl.
  - intros k t. rewrite lookup_empty. split; [done|]. by intros (T & ? & _).
  - intros ? ? ? ? ? ?. done.
  - intros ? ? ? ?. done.
  - by rewrite map_size_empty.
Qed.

Lemma consistent_new_transport s : consistent s → consistent (new_transport s).2.
Proof.
  intros [Hreg Huniq Huuid Hcount]. split; simpl.
  - intros k t. rewrite Hreg. split.
    + intros (T & Ht & ?). exists T. split; [|done].
      by apply lookup_app_l_Some.
    + intros (T & [[_ Ht]|[_ <-]]%lookup_snoc_Some & Hk & ?); [|done].
      by exists T.
  - intros t1 t2 T1 T2 k [[_ H1]|[_ <-]]%lookup_snoc_Some
      [[_ H2]|[_ <-]]%lookup_snoc_Some; try done.
    by apply Huniq.
  - intros t T k [[_ Ht]|[_ <-]]%lookup_snoc_Some; [|done]. by eapply Huuid.
  - by rewrite count_bound_snoc, Hcount, Nat.add_0_r.
Qed.

Lemma consistent_bind s t T sid :
  consistent s →
  heap s !! t = Some T → sessionId T = None → closed T = false →
  uuid_shaped sid = true → fresh sid s = true →
  consistent (State (<[sid:=t]> (transports s))
                    (<[t:=Transport (Some sid) false]> (heap s))).
Proof.
  intros [Hreg Huniq Huuid Hcount] Ht Hnone Hopen Hsid Hfresh.
  rewrite fresh_spec in Hfresh.
  assert (t < length (heap s)) as Hlt by (by eapply lookup_lt_Some).
  assert (transports s !! sid = None) as Hfree.
  { destruct (transports s !! sid) as [t'|] eqn:E; [|done].
    apply Hreg in E as (T' & HT' & Hk & _). by destruct (Hfresh _ _ HT'). }
  split; simpl.
  - intros k t'. rewrite lookup_insert_Some, Hreg. split.
    + intros [[<- <-]|[Hne (T' & HT' & Hk & Hc)]].
      * exists (Transport (Some sid) false). by rewrite list_lookup_insert_eq.
      * exists T'. split; [|done]. rewrite list_lookup_insert_ne; [done|].
        intros <-. congruence.
    + intros (T' & [(<- & <- & _)|[Hne HT']]%list_lookup_insert_Some & Hk & Hc);
        simplify_eq/=.
      * by left.
      * right. split; [|by exists T'].
        intros <-. by destruct (Hfresh _ _ HT').
  - intros t1 t2 T1 T2 k.
    rewrite !list_lookup_insert_Some.
    intros [(<- & <- & _)|[? H1]] [(<- & <- & _)|[? H2]] ? ?; simplify_eq/=.
    + done.
    + by destruct (Hfresh _ _ H2).
    + by destruct (Hfresh _ _ H1).
    + by eapply Huniq.
  - intros t' T' k. rewrite list_lookup_insert_Some.
    intros [(<- & <- & _)|[? H1]] ?; simplify_eq/=; [done|]. by eapply Huuid.
  - rewrite map_size_insert_None by done.
    pose proof (count_bound_insert _ _ _ (Transport (Some sid) false) Ht) as Hc.
    rewrite (bound_None T), (bound_Some_open (Transport (Some sid) false) sid) in Hc
      by done.
    lia.
Qed.

(** What [sdk_close] amounts to once the close handler has run. *)
Lemma sdk_close_eq s t T :
  heap s !! t = Some T →
  sdk_close t s =
    State (match if_truthy (sessionId T) with
           | Some sid => delete sid (transports s)
           | None => transports s
           end)
          (<[t:=Transport (sessionId T) true]> (heap s)).
Proof.
  intros Ht. unfold sdk_close, onclose. rewrite Ht. simpl.
  rewrite list_lookup_insert_eq by (by eapply lookup_lt_Some). simpl.
  unfold if_truthy. destruct (sessionId T) as [sid|]; [|done].
  by destruct (truthy_string sid).
Qed.

Lemma sdk_close_missing s t : heap s !! t = None → sdk_close t s = s.
Proof. unfold sdk_close. by intros ->. Qed.

Lemma consistent_sdk_close s t : consistent s → consistent (sdk_close t s).
Proof.
  intros Hs. destruct (heap s !! t) as [T|] eqn:Ht;
    [|by rewrite sdk_close_missing].
  rewrite (sdk_close_eq _ _ _ Ht).
  destruct Hs as [Hreg Huniq Huuid Hcount].
  assert (t < length (heap s)) as Hlt by (by eapply lookup_lt_Some).
  destruct (sessionId T) as [sid|] eqn:Hsid.
  - rewrite if_truthy_uuid by (by eapply Huuid). split; simpl.
    + intros k t'. rewrite lookup_delete_Some, Hreg. split.
      * intros [Hne (T' & HT' & Hk & Hc)]. exists T'. split; [|done].
        rewrite list_lookup_insert_ne; [done|]. intros <-. congruence.
      * intros (T' & [(<- & <- & _)|[Hne HT']]%list_lookup_insert_Some & Hk & Hc);
          simplify_eq/=.
        split; [|by exists T'].
        intros <-. apply Hne. by eapply Huniq.
    + intros t1 t2 T1 T2 k.
      rewrite !list_lookup_insert_Some.
      intros [(<- & <- & _)|[? H1]] [(<- & <- & _)|[? H2]] ? ?; simplify_eq/=.
      * done.
      * by eapply Huniq.
      * by eapply Huniq.
      * by eapply Huniq.
    + intros t' T' k. rewrite list_lookup_insert_Some.
      intros [(<- & <- & _)|[? H1]] ?; simplify_eq/=; by eapply Huuid.
    + pose proof (count_bound_insert _ _ _ (Transport (Some sid) true) Ht) as Hc.
      rewrite (bound_closed (Transport (Some sid) true)) in Hc by done.
      rewrite map_size_delete.
      destruct (closed T) eqn:Hcl.
      * rewrite (bound_closed T) in Hc by done.
        destruct (transports s !! sid) as [t'|] eqn:E; simpl; [|lia].
        apply Hreg in E as (T' & HT' & Hk & Hopen).
        assert (t' = t) as -> by (by eapply Huniq). congruence.
      * rewrite (bound_Some_open T sid) in Hc by done.
        assert (transports s !! sid = Some t) as ->
          by (apply Hreg; by exists T).
        simpl. lia.
  - simpl. split; simpl.
    + intros k t'. rewrite Hreg. split.
      * intros (T' & HT' & Hk & Hc). exists T'. split; [|done].
        rewrite list_lookup_insert_ne; [done|]. intros <-. congruence.
      * intros (T' & [(<- & <- & _)|[Hne HT']]%list_lookup_insert_Some & Hk & Hc);
          simplify_eq/=.
        by exists T'.
    + intros t1 t2 T1 T2 k.
      rewrite !list_lookup_insert_Some.
      intros [(<- & <- & _)|[? H1]] [(<- & <- & _)|[? H2]] ? ?; simplify_eq/=.
      by eapply Huniq.
    + intros t' T' k. rewrite list_lookup_insert_Some.
      intros [(<- & <- & _)|[? H1]] ?; simplify_eq/=; by eapply Huuid.
    + pose proof (count_bound_insert _ _ _ (Transport None true) Ht) as Hc.
      rewrite (bound_closed (Transport None true)), (bound_None T) in Hc by done.
      lia.
Qed.

Lemma consistent_sdk_initialize s t sid :
  consistent s →
  (∀ T, heap s !! t = Some T → sessionId T = None → closed T = false) →
  uuid_shaped sid = true → fresh sid s = true →
  consistent (sdk_initialize t sid s).1.
Proof.
  intros Hs Hopen Hsid Hfresh. unfold sdk_initialize.
  destruct (heap s !! t) as [T|] eqn:Ht; [|exact Hs].
  destruct (sessionId T) as [?|] eqn:HT; [exact Hs|]. simpl.
  rewrite (Hopen T) by done. eapply consistent_bind; eauto.
Qed.

Lemma consistent_handleRequest m t o s :
  consistent s →
  (∀ T, heap s !! t = Some T → sessionId T = None → closed T = false) →
  mint_ok o s = true →
  consistent (handleRequest m t o s).1.
Proof.
  intros Hs Hopen Hmint. unfold handleRequest, mint_ok in *.
  assert (consistent
    (match m, minted o with
     | POST, Some sid => sdk_initialize t sid s
     | _, _ => (s, [])
     end).1) as H1.
  { destruct m, (minted o) as [sid|]; try done.
    apply andb_true_iff in Hmint as [? ?].
    by apply consistent_sdk_initialize. }
  destruct (match m, minted o with
            | POST, Some sid => sdk_initialize t sid s
            | _, _ => (s, [])
            end) as [s1 hs].
  simpl in *. destruct (closes o); [|done]. by apply consistent_sdk_close.
Qed.

Lemma registered_has_id s k t :
  consistent s → transports s !! k = Some t →
  ∀ T, heap s !! t = Some T → sessionId T = None → closed T = false.
Proof.
  intros Hs Hk T HT Hnone.
  apply (cons_registry _ Hs) in Hk as (T' & HT' & Hid & _). congruence.
Qed.

Lemma mint_ok_new_transport o s :
  mint_ok o s = true → mint_ok o (new_transport s).2 = true.
Proof.
  unfold mint_ok. destruct (minted o) as [sid|]; [|done].
  rewrite !andb_true_iff, !fresh_spec. intros [? Hf]. split; [done|].
  intros t T [[_ Ht]|[_ <-]]%lookup_snoc_Some; [by eapply Hf|done].
Qed.

Lemma consistent_post_mcp req o s :
  consistent s → mint_ok o s = true → consistent (post_mcp req o s).1.
Proof.
  intros Hs Hmint. unfold post_mcp.
  destruct (if_truthy (mcp_session_id req)) as [sid|].
  - unfold obj_get. destruct (transports s !! sid) as [t|] eqn:E.
    + apply consistent_handleRequest; [done| |done].
      by eapply registered_has_id.
    + by case_bool_decide.
  - destruct (is_initialize (body req)); [|done].
    apply consistent_handleRequest.
    + by apply consistent_new_transport.
    + simpl. intros T. rewrite lookup_snoc_Some.
      intros [[? ?]|[_ <-]]; [lia|done].
    + by apply mint_ok_new_transport.
Qed.

Lemma consistent_handleSessionRequest m req o s :
  consistent s → mint_ok o s = true →
  consistent (handleSessionRequest m req o s).1.
Proof.
  intros Hs Hmint. unfold handleSessionRequest.
  destruct (if_truthy (mcp_session_id req)) as [sid|]; [|done].
  unfold obj_get. destruct (transports s !! sid) as [t|] eqn:E.
  - apply consistent_handleRequest; [done| |done].
    by eapply registered_has_id.
  - by case_bool_decide.
Qed.

Lemma consistent_exec cfg l s :
  consistent s → label_ok l s = true → consistent (exec cfg l s).1.
Proof.
  intros Hs Hok. destruct l as [req o|req o|req o|req now|t]; simpl in *.
  - pose proof (consistent_post_mcp req o s Hs Hok).
    by destruct (post_mcp req o s).
  - pose proof (consistent_handleSessionRequest GET req o s Hs Hok).
    by destruct (handleSessionRequest GET req o s).
  - pose proof (consistent_handleSessionRequest DELETE req o s Hs Hok).
    by destruct (handleSessionRequest DELETE req o s).
  - done.
  - by apply consistent_sdk_close.
Qed.

Lemma run_consistent cfg tr s : run cfg tr s → consistent s.
Proof.
  induction 1 as [|tr s l _ IH Hok]; [apply consistent_init|].
  by apply consistent_exec.
Qed.

(** ** What a delegated request can do *)

Lemma sdk_initialize_heap_length t sid s :
  length (heap (sdk_initialize t sid s).1) = length (heap s).
Proof.
  unfold sdk_initialize. destruct (heap s !! t) as [T|]; [|done].
  destruct (sessionId T); [done|]. simpl. by rewrite length_insert.
Qed.

Lemma sdk_close_heap_length t s : length (heap (sdk_close t s)) = length (heap s).
Proof.
  destruct (heap s !! t) as [T|] eqn:Ht; [|by rewrite sdk_close_missing].
  rewrite (sdk_close_eq _ _ _ Ht). simpl. by rewrite length_insert.
Qed.

Lemma handleRequest_outcome m t o s :
  ∃ hs, (handleRequest m t o s).2 = Delegated t hs.
Proof.
  unfold handleRequest.
  destruct (match m, minted o with
            | POST, Some sid => sdk_initialize t sid s
            | _, _ => (s, [])
            end) as [s1 hs].
  by exists hs.
Qed.

Lemma handleRequest_heap_length m t o s :
  length (heap (handleRequest m t o s).1) = length (heap s).
Proof.
  unfold handleRequest.
  assert (length (heap (match m, minted o with
                        | POST, Some sid => sdk_initialize t sid s
                        | _, _ => (s, [])
                        end).1) = length (heap s)) as H1.
  { destruct m, (minted o); try done. apply sdk_initialize_heap_length. }
  destruct (match m, minted o with
            | POST, Some sid => sdk_initialize t sid s
            | _, _ => (s, [])
            end) as [s1 hs].
  simpl in *. destruct (closes o); [|done]. by rewrite sdk_close_heap_length.
Qed.

(** ** Routing of POST /mcp *)

Lemma post_mcp_reuse req o s sid t :
  if_truthy (mcp_session_id req) = Some sid → transports s !! sid = Some t →
  post_mcp req o s = handleRequest POST t o s.
Proof.
  intros Hh Ht. unfold post_mcp. by rewrite Hh, (obj_get_own _ _ _ Ht).
Qed.

Lemma post_mcp_create req o s :
  if_truthy (mcp_session_id req) = None → is_initialize (body req) = true →
  post_mcp req o s = handleRequest POST (length (heap s)) o (new_transport s).2.
Proof. intros Hh Hb. unfold post_mcp. by rewrite Hh, Hb. Qed.

Lemma post_mcp_unknown req o s sid :
  if_truthy (mcp_session_id req) = Some sid → obj_get (transports s) sid = None →
  post_mcp req o s = (s, Responded bad_request).
Proof. intros Hh Hg. unfold post_mcp. by rewrite Hh, Hg. Qed.

Lemma post_mcp_missing req o s :
  if_truthy (mcp_session_id req) = None → is_initialize (body req) = false →
  post_mcp req o s = (s, Responded bad_request).
Proof. intros Hh Hb. unfold post_mcp. by rewrite Hh, Hb. Qed.

(** C1, as stated, fails: a request whose session-id header is present but
    empty names no registered transport, yet with an initialize body it is not
    answered with 400; a new transport is created and handles it. *)
Lemma post_mcp_empty_header_creates :
  let req := Request (Some "") (Some initialize_body) in
  let o := SdkResult (Some a_uuid) false in
  mcp_session_id req ≠ None ∧
  transports init !! "" = None ∧
  (post_mcp req o init).2 = Delegated 0 [("mcp-session-id", a_uuid)] ∧
  heap (post_mcp req o init).1 = [Transport (Some a_uuid) false] ∧
  (post_mcp req o init).2 ≠ Responded bad_request.
Proof. repeat split; done. Qed.

(** C1 (amended): a session-id header that is absent or empty counts as no
    session id.  A non-empty id that is a key of [transports] delegates the
    request to the transport stored there and creates none; no session id
    with an initialize body creates a transport and hands it the request;
    a non-empty id that is neither a key of [transports] nor the name of a
    member of [Object.prototype], or no session id with another body, is
    answered with status 400 and leaves the state alone. *)
Theorem post_mcp_routing (req : request) (o : sdk_result) (s : state) :
  (∀ sid t,
     mcp_session_id req = Some sid → sid ≠ "" → transports s !! sid = Some t →
     post_mcp req o s = handleRequest POST t o s ∧
     (∃ hs, (post_mcp req o s).2 = Delegated t hs) ∧
     length (heap (post_mcp req o s).1) = length (heap s)) ∧
  (mcp_session_id req = None ∨ mcp_session_id req = Some "" →
     is_initialize (body req) = true →
     post_mcp req o s = handleRequest POST (length (heap s)) o (new_transport s).2 ∧
     (∃ hs, (post_mcp req o s).2 = Delegated (length (heap s)) hs) ∧
     length (heap (post_mcp req o s).1) = S (length (heap s))) ∧
  (∀ sid,
     mcp_session_id req = Some sid → sid ≠ "" →
     transports s !! sid = None → sid ∉ object_prototype_names →
     post_mcp req o s = (s, Responded bad_request) ∧ status bad_request = 400%Z) ∧
  (mcp_session_id req = None ∨ mcp_session_id req = Some "" →
     is_initialize (body req) = false →
     post_mcp req o s = (s, Responded bad_request) ∧ status bad_request = 400%Z).
Proof.
  split; [|split; [|split]].
  - intros sid t Hh Hne Ht.
    assert (post_mcp req o s = handleRequest POST t o s) as E.
    { apply (post_mcp_reuse _ _ _ sid); [|done]. by apply if_truthy_Some. }
    rewrite E. split; [done|]. split.
    + apply handleRequest_outcome.
    + apply handleRequest_heap_length.
  - intros Hh%if_truthy_None Hb.
    assert (post_mcp req o s
            = handleRequest POST (length (heap s)) o (new_transport s).2) as E
      by (by apply post_mcp_create).
    rewrite E. split; [done|]. split.
    + apply handleRequest_outcome.
    + rewrite handleRequest_heap_length. simpl.
      rewrite length_app. simpl. lia.
  - intros sid Hh Hne Ht Hp. split; [|done].
    apply (post_mcp_unknown _ _ _ sid); [by apply if_truthy_Some|].
    by apply obj_get_None.
  - intros Hh%if_truthy_None Hb. split; [|done]. by apply post_mcp_missing.
Qed.

(** ** The rejection of POST /mcp *)

(** C4: whenever the POST handler rejects a request itself, which it does
    only for a missing or invalid session id, the response has status 400
    and its body is the JSON-RPC error object with code -32000, a message
    string and a null id, in this order of fields. *)
Theorem post_mcp_rejection_shape (req : request) (o : sdk_result) (s s' : state)
  (r : response) :
  post_mcp req o s = (s', Responded r) →
  status r = 400%Z ∧
  sent r = SendJson (JObj
    [ ("jsonrpc", JStr "2.0");
      ("error", JObj [ ("code", JNum (-32000));
                       ("message", JStr "Bad Request: No valid session ID provided") ]);
      ("id", JNull) ]) ∧
  (if_truthy (mcp_session_id req) = None ∧ is_initialize (body req) = false ∨
   ∃ sid, if_truthy (mcp_session_id req) = Some sid ∧
          obj_get (transports s) sid = None).
Proof.
  unfold post_mcp. intros H.
  destruct (if_truthy (mcp_session_id req)) as [sid|] eqn:Hh.
  - destruct (obj_get (transports s) sid) as [[t|n]|] eqn:Hg.
    + destruct (handleRequest_outcome POST t o s) as [hs Ho].
      rewrite H in Ho. discriminate Ho.
    + discriminate H.
    + injection H as <- <-. repeat split. right. by exists sid.
  - destruct (is_initialize (body req)) eqn:Hb.
    + simpl in H.
      destruct (handleRequest_outcome POST (length (heap s)) o
                  (State (transports s) (heap s ++ [Transport None false])))
        as [hs Ho].
      rewrite H in Ho. discriminate Ho.
    + injection H as <- <-. repeat split. by left.
Qed.

(** ** Registration *)

(** C2, as stated, fails: registering under an id that is already present
    does not fail; the entry is replaced by the new transport. *)
Lemma onsessioninitialized_replaces_entry :
  let s := State {[ a_uuid := 0 ]} [Transport (Some a_uuid) false; Transport None false] in
  transports s !! a_uuid = Some 0 ∧
  transports (onsessioninitialized 1 a_uuid s).1 !! a_uuid = Some 1 ∧
  (onsessioninitialized 1 a_uuid s).1 ≠ s.
Proof.
  split; [done|]. split; [done|].
  intros H. apply (f_equal (λ x, transports x !! a_uuid)) in H. discriminate H.
Qed.

(** C2 (amended): registration stores the transport under the session id
    unconditionally: whether or not the id was present before, afterwards
    the id resolves to the new transport, every other id resolves as before,
    and no transport object is touched.  There is no duplicate check. *)
Theorem onsessioninitialized_registers (t : tid) (sid : string) (s : state) :
  uuid_shaped sid = true →
  obj_get (transports (onsessioninitialized t sid s).1) sid = Some (Own t) ∧
  (∀ k, k ≠ sid →
     obj_get (transports (onsessioninitialized t sid s).1) k
     = obj_get (transports s) k) ∧
  heap (onsessioninitialized t sid s).1 = heap s.
Proof.
  intros Hsid. simpl. split; [|split; [|done]].
  - apply obj_get_own, lookup_insert_eq.
  - intros k Hk. unfold obj_get. by rewrite lookup_insert_ne.
Qed.

(** ** Session validation of GET and DELETE /mcp *)

(** Without a session id, or with one that resolves to nothing, the GET and
    DELETE handler answers 400; with a registered id it delegates. *)
Lemma handleSessionRequest_routing (m : method) (req : request) (o : sdk_result)
  (s : state) :
  (if_truthy (mcp_session_id req) = None →
     handleSessionRequest m req o s = (s, Responded invalid_session)) ∧
  (∀ sid, if_truthy (mcp_session_id req) = Some sid →
     obj_get (transports s) sid = None →
     handleSessionRequest m req o s = (s, Responded invalid_session)) ∧
  (∀ sid t, if_truthy (mcp_session_id req) = Some sid →
     transports s !! sid = Some t →
     handleSessionRequest m req o s = handleRequest m t o s).
Proof.
  unfold handleSessionRequest. repeat split.
  - by intros ->.
  - by intros sid -> ->.
  - intros sid t -> Ht. by rewrite (obj_get_own _ _ _ Ht).
Qed.

(** C6 fails on the code for a session id that names a member of
    [Object.prototype]: no transport is registered under [constructor], yet
    the GET and the DELETE request are not answered with 400; the handler
    takes the inherited function for a transport and throws. *)
Theorem handleSessionRequest_inherited_name (o : sdk_result) :
  let req := Request (Some "constructor") None in
  transports init !! "constructor" = None ∧
  handleSessionRequest GET req o init = (init, Threw) ∧
  handleSessionRequest DELETE req o init = (init, Threw) ∧
  (∀ m, handleSessionRequest m req o init ≠ (init, Responded invalid_session)).
Proof.
  split; [done|]. split; [done|]. split; [done|]. by intros [].
Qed.

(** ** Rejections do not touch the state *)

(** C9: a request that a handler answers with status 400 leaves the
    registry and every transport as they were: nothing is created,
    registered or evicted. *)
Theorem rejection_leaves_state (cfg : config) (l : label) (s : state) (r : response) :
  (exec cfg l s).2 = Some (Responded r) →
  status r = 400%Z →
  (exec cfg l s).1 = s.
Proof.
  intros Hout Hst. destruct l as [req o|req o|req o|req now|t]; simpl in *.
  - unfold post_mcp in *.
    destruct (if_truthy (mcp_session_id req)) as [sid|].
    + destruct (obj_get (transports s) sid) as [[t|n]|]; [|done|done].
      destruct (handleRequest_outcome POST t o s) as [hs Ho].
      destruct (handleRequest POST t o s). simpl in *. congruence.
    + destruct (is_initialize (body req)); [|done]. simpl in *.
      destruct (handleRequest_outcome POST (length (heap s)) o
                  (State (transports s) (heap s ++ [Transport None false])))
        as [hs Ho].
      destruct (handleRequest POST _ o _). simpl in *. congruence.
  - unfold handleSessionRequest in *.
    destruct (if_truthy (mcp_session_id req)) as [sid|]; [|done].
    destruct (obj_get (transports s) sid) as [[t|n]|]; [|done|done].
    destruct (handleRequest_outcome GET t o s) as [hs Ho].
    destruct (handleRequest GET t o s). simpl in *. congruence.
  - unfold handleSessionRequest in *.
    destruct (if_truthy (mcp_session_id req)) as [sid|]; [|done].
    destruct (obj_get (transports s) sid) as [[t|n]|]; [|done|done].
    destruct (handleRequest_outcome DELETE t o s) as [hs Ho].
    destruct (handleRequest DELETE t o s). simpl in *. congruence.
  - done.
  - done.
Qed.

(** ** The close handler *)

(** C10: when the transport has no session id at the time [onclose] fires,
    the handler changes nothing; otherwise it deletes at most the entry
    under the transport's own session id: every other id keeps its entry,
    and no transport object is touched. *)
Theorem onclose_evicts_own_id_only (t : tid) (s : state) (T : transport) :
  heap s !! t = Some T →
  (sessionId T = None → onclose t s = s) ∧
  (∀ k, sessionId T ≠ Some k →
     transports (onclose t s) !! k = transports s !! k) ∧
  (∀ sid, sessionId T = Some sid → sid ≠ "" →
     transports (onclose t s) = delete sid (transports s)) ∧
  heap (onclose t s) = heap s.
Proof.
  intros Ht. unfold onclose. rewrite Ht.
  destruct (sessionId T) as [sid|]; [|done].
  unfold truthy_string. destruct (String.eqb_spec sid "") as [->|Hne]; simpl.
  - split; [done|]. split; [done|]. split; [|done].
    by intros ? [= <-].
  - split; [done|]. split; [|split; [|done]].
    + intros k Hk. apply lookup_delete_ne. congruence.
    + by intros ? [= <-].
Qed.

(** ** The registry invariant *)

(** C3: at every reachable state a transport is stored in [transports]
    exactly when it is not closed and has a session id; an entry is stored
    under the session id its transport was assigned; and closing a
    transport leaves no entry for it. *)
Theorem registry_invariant (cfg : config) (tr : list event) (s : state) :
  run cfg tr s →
  (∀ t T, heap s !! t = Some T →
     ((∃ k, transports s !! k = Some t) ↔
      closed T = false ∧ sessionId T ≠ None)) ∧
  (∀ k t, transports s !! k = Some t →
     ∃ T, heap s !! t = Some T ∧ sessionId T = Some k ∧ closed T = false) ∧
  (∀ t k, transports (sdk_close t s) !! k ≠ Some t).
Proof.
  intros Hs%run_consistent. split; [|split].
  - intros t T Ht. split.
    + intros [k (T' & HT' & Hk & Hc)%(cons_registry _ Hs)].
      split; congruence.
    + intros [Hc Hid]. destruct (sessionId T) as [k|] eqn:Hk; [|done].
      exists k. apply (cons_registry _ Hs). by exists T.
  - intros k t Hk. by apply (cons_registry _ Hs).
  - intros t k Hk.
    pose proof (consistent_sdk_close s t Hs) as Hs'.
    apply (cons_registry _ Hs') in Hk as (T' & HT' & _ & Hc).
    destruct (heap s !! t) as [T|] eqn:Ht.
    + rewrite (sdk_close_eq _ _ _ Ht) in HT'. simpl in HT'.
      rewrite list_lookup_insert_eq in HT' by (by eapply lookup_lt_Some).
      by simplify_eq/=.
    + rewrite (sdk_close_missing _ _ Ht) in HT'. congruence.
Qed.

(** ** The health report *)

(** C7: whatever the request carries, GET /health answers with a JSON
    object of exactly the fields status, timestamp, activeSessions,
    serverName and serverVersion; at every reachable state activeSessions,
    the number of keys of [transports], is the number of transports that are
    bound at that moment. *)
Theorem health_report (cfg : config) (tr : list event) (s : state)
  (req : request) (now : string) :
  run cfg tr s →
  health cfg req now s =
    Response 200 (SendJson (JObj
      [ ("status", JStr "healthy");
        ("timestamp", JStr now);
        ("activeSessions", JNum (Z.of_nat (count_bound (heap s))));
        ("serverName", JStr (serverName cfg));
        ("serverVersion", JStr (serverVersion cfg)) ])) ∧
  obj_keys_length (transports s) = count_bound (heap s) ∧
  (∀ req', health cfg req' now s = health cfg req now s).
Proof.
  intros Hs%run_consistent. unfold health, obj_keys_length.
  rewrite (cons_count _ Hs). done.
Qed.

(** ** Closed sessions *)

Lemma closed_with_sdk_close s t sid t' :
  closed_with s t sid → closed_with (sdk_close t' s) t sid.
Proof.
  intros (T & Ht & Hid & Hc).
  destruct (heap s !! t') as [T'|] eqn:Ht';
    [|rewrite sdk_close_missing by done; by exists T].
  rewrite (sdk_close_eq _ _ _ Ht'). unfold closed_with. simpl.
  destruct (decide (t' = t)) as [->|Hne].
  - rewrite list_lookup_insert_eq by (by eapply lookup_lt_Some).
    simplify_eq. by eexists.
  - rewrite list_lookup_insert_ne by done. by exists T.
Qed.

Lemma closed_with_sdk_initialize s t sid t' sid' :
  closed_with s t sid → closed_with (sdk_initialize t' sid' s).1 t sid.
Proof.
  intros (T & Ht & Hid & Hc). unfold sdk_initialize.
  destruct (heap s !! t') as [T'|] eqn:Ht'; [|by exists T].
  destruct (sessionId T') eqn:Hid'; [by exists T|].
  unfold closed_with. simpl.
  rewrite list_lookup_insert_ne; [by exists T|]. intros ->. congruence.
Qed.

Lemma closed_with_handleRequest s t sid m t' o :
  closed_with s t sid → closed_with (handleRequest m t' o s).1 t sid.
Proof.
  intros H. unfold handleRequest.
  assert (closed_with
    (match m, minted o with
     | POST, Some sid' => sdk_initialize t' sid' s
     | _, _ => (s, [])
     end).1 t sid) as H1.
  { destruct m, (minted o); try done. by apply closed_with_sdk_initialize. }
  destruct (match m, minted o with
            | POST, Some sid' => sdk_initialize t' sid' s
            | _, _ => (s, [])
            end) as [s1 hs].
  simpl in *. destruct (closes o); [|done]. by apply closed_with_sdk_close.
Qed.

Lemma closed_with_exec cfg l s t sid :
  closed_with s t sid → closed_with (exec cfg l s).1 t sid.
Proof.
  intros H. destruct l as [req o|req o|req o|req now|t']; simpl.
  - assert (closed_with (post_mcp req o s).1 t sid) as H1.
    { unfold post_mcp. destruct (if_truthy (mcp_session_id req)) as [k|].
      - destruct (obj_get (transports s) k) as [[t'|n]|]; try done.
        by apply closed_with_handleRequest.
      - destruct (is_initialize (body req)); [|done].
        apply closed_with_handleRequest.
        destruct H as (T & Ht & ? & ?). exists T. split; [|done].
        by apply lookup_app_l_Some. }
    by destruct (post_mcp req o s).
  - assert (closed_with (handleSessionRequest GET req o s).1 t sid) as H1.
    { unfold handleSessionRequest.
      destruct (if_truthy (mcp_session_id req)) as [k|]; [|done].
      destruct (obj_get (transports s) k) as [[t'|n]|]; try done.
      by apply closed_with_handleRequest. }
    by destruct (handleSessionRequest GET req o s).
  - assert (closed_with (handleSessionRequest DELETE req o s).1 t sid) as H1.
    { unfold handleSessionRequest.
      destruct (if_truthy (mcp_session_id req)) as [k|]; [|done].
      destruct (obj_get (transports s) k) as [[t'|n]|]; try done.
      by apply closed_with_handleRequest. }
    by destruct (handleSessionRequest DELETE req o s).
  - done.
  - by apply closed_with_sdk_close.
Qed.

Lemma closed_with_later cfg s s' t sid :
  later cfg s s' → closed_with s t sid → closed_with s' t sid.
Proof.
  induction 1 as [|s' l _ IH _]; [done|].
  intros H. by apply closed_with_exec, IH.
Qed.

Lemma later_consistent cfg s s' : later cfg s s' → consistent s → consistent s'.
Proof.
  induction 1 as [|s' l _ IH Hok]; [done|].
  intros H. by apply consistent_exec; [apply IH|].
Qed.

Lemma closed_with_unregistered s t sid :
  consistent s → closed_with s t sid →
  if_truthy (Some sid) = Some sid ∧ obj_get (transports s) sid = None.
Proof.
  intros Hs (T & Ht & Hid & Hc).
  assert (uuid_shaped sid = true) as Hu by (by eapply (cons_uuid _ Hs)).
  split; [by apply if_truthy_uuid|].
  rewrite obj_get_uuid by done.
  destruct (transports s !! sid) as [t'|] eqn:E; [|done].
  apply (cons_registry _ Hs) in E as (T' & HT' & Hid' & Hc').
  assert (t' = t) as -> by (by eapply (cons_unique _ Hs)). congruence.
Qed.

(** C5: once the transport of a session id has closed, at that state and
    at every later one a POST, GET or DELETE request carrying the id is
    answered with the same 400 response, and leaves the state as untouched,
    as on a server on which the id never existed. *)
Theorem closed_session_is_unknown (cfg : config) (tr : list event) (s s' : state)
  (t : tid) (sid : string) (b : option json) (o : sdk_result) :
  run cfg tr s →
  closed_with s t sid →
  later cfg s s' →
  let req := Request (Some sid) b in
  transports s' !! sid = None ∧
  post_mcp req o s' = (s', Responded bad_request) ∧
  handleSessionRequest GET req o s' = (s', Responded invalid_session) ∧
  handleSessionRequest DELETE req o s' = (s', Responded invalid_session) ∧
  (post_mcp req o s').2 = (post_mcp req o init).2 ∧
  (∀ m, (handleSessionRequest m req o s').2 = (handleSessionRequest m req o init).2).
Proof.
  intros Hrun Hcl Hlater req.
  assert (consistent s') as Hs'
    by (eapply later_consistent; [done|by eapply run_consistent]).
  apply (closed_with_later _ _ _ _ _ Hlater) in Hcl.
  destruct (closed_with_unregistered _ _ _ Hs' Hcl) as [Htr Hget].
  assert (obj_get (transports init) sid = None) as Hget0.
  { destruct Hcl as (T & Ht & Hid & _).
    rewrite obj_get_uuid by (by eapply (cons_uuid _ Hs')). done. }
  assert (∀ m s0, obj_get (transports s0) sid = None →
            handleSessionRequest m req o s0 = (s0, Responded invalid_session))
    as Hsr.
  { intros m s0 H0. unfold handleSessionRequest, req. simpl mcp_session_id.
    by rewrite Htr, H0. }
  assert (∀ s0, obj_get (transports s0) sid = None →
            post_mcp req o s0 = (s0, Responded bad_request)) as Hpost.
  { intros s0 H0. unfold post_mcp, req. simpl mcp_session_id.
    by rewrite Htr, H0. }
  split.
  { apply obj_get_None in Hget. tauto. }
  split; [by apply Hpost|]. split; [by apply Hsr|]. split; [by apply Hsr|].
  split.
  - by rewrite !Hpost.
  - intros m. by rewrite !Hsr.
Qed.

(** ** The session-id response header *)

Lemma fresh_known sid s : fresh sid s = true ↔ ¬ known s sid.
Proof.
  rewrite fresh_spec. unfold known. split.
  - intros H (t & T & Ht & Hid). by eapply H.
  - intros H t T Ht Hid. apply H. by exists t, T.
Qed.

Lemma fresh_ext sid s s' :
  (known s' sid ↔ known s sid) → fresh sid s' = fresh sid s.
Proof.
  intros H. destruct (fresh sid s) eqn:E.
  - apply fresh_known. rewrite H. by apply fresh_known.
  - apply not_true_is_false. rewrite fresh_known, H, <-fresh_known. congruence.
Qed.

Lemma known_new_transport s sid : known (new_transport s).2 sid ↔ known s sid.
Proof.
  unfold known. simpl. split.
  - intros (t & T & [[_ Ht]|[_ <-]]%lookup_snoc_Some & Hid); [|done].
    by exists t, T.
  - intros (t & T & Ht & Hid). exists t, T. split; [|done].
    by apply lookup_app_l_Some.
Qed.

Lemma known_sdk_close s t sid : known (sdk_close t s) sid ↔ known s sid.
Proof.
  destruct (heap s !! t) as [T|] eqn:Ht; [|by rewrite sdk_close_missing].
  rewrite (sdk_close_eq _ _ _ Ht). unfold known. simpl. split.
  - intros (t' & T' & [(<- & <- & _)|[Hne HT']]%list_lookup_insert_Some & Hid).
    + by exists t, T.
    + by exists t', T'.
  - intros (t' & T' & HT' & Hid). destruct (decide (t = t')) as [<-|Hne].
    + exists t, (Transport (sessionId T) true).
      rewrite list_lookup_insert_eq by (by eapply lookup_lt_Some).
      simplify_eq. done.
    + exists t', T'. by rewrite list_lookup_insert_ne.
Qed.

(** The two ways a call of [handleRequest] can end. *)
Lemma handleRequest_cases m t o s :
  let r := handleRequest m t o s in
  (r.2 = Delegated t [] ∧ ∀ sid, known r.1 sid ↔ known s sid) ∨
  (∃ sid0 T, m = POST ∧ minted o = Some sid0 ∧
     heap s !! t = Some T ∧ sessionId T = None ∧
     r.2 = Delegated t [("mcp-session-id", sid0)] ∧
     ∀ sid, known r.1 sid ↔ known s sid ∨ sid = sid0).
Proof.
  unfold handleRequest.
  assert (∀ s1 hs sid,
    known (if closes o then sdk_close t s1 else s1, Delegated t hs).1 sid
    ↔ known s1 sid) as Hclose.
  { intros s1 hs sid. simpl. destruct (closes o); [|done].
    apply known_sdk_close. }
  destruct m; try (left; split; [done|apply Hclose]).
  destruct (minted o) as [sid0|]; [|left; split; [done|apply Hclose]].
  unfold sdk_initialize.
  destruct (heap s !! t) as [T|] eqn:Ht; [|left; split; [done|apply Hclose]].
  destruct (sessionId T) as [?|] eqn:Hid; [left; split; [done|apply Hclose]|].
  right. exists sid0, T. unfold onsessioninitialized. cbv iota beta zeta.
  repeat (split; [done|]). intros sid. rewrite Hclose. unfold known. simpl.
  split.
  - intros (t' & T' & [(<- & <- & _)|[Hne HT']]%list_lookup_insert_Some & Hid').
    + right. by simplify_eq/=.
    + left. by exists t', T'.
  - intros [(t' & T' & HT' & Hid')| ->].
    + exists t', T'. split; [|done]. rewrite list_lookup_insert_ne; [done|].
      intros <-. congruence.
    + exists t, (Transport (Some sid0) (closed T)).
      by rewrite list_lookup_insert_eq by (by eapply lookup_lt_Some).
Qed.

Lemma handleRequest_ids m t o s :
  let r := handleRequest m t o s in
  match outcome_header r.2 with
  | Some sid0 =>
      (m = POST ∧ minted o = Some sid0 ∧
       ∃ T, heap s !! t = Some T ∧ sessionId T = None) ∧
      ∀ sid, known r.1 sid ↔ known s sid ∨ sid = sid0
  | None => ∀ sid, known r.1 sid ↔ known s sid
  end.
Proof.
  intros r. destruct (handleRequest_cases m t o s) as
    [[Hout Hk]|(sid0 & T & -> & Hm & Ht & Hid & Hout & Hk)]; fold r in Hout, Hk.
  - by rewrite Hout.
  - rewrite Hout. simpl. split; [|done]. split; [done|]. split; [done|].
    by exists T.
Qed.

Lemma obj_get_Own_inv o k t : obj_get o k = Some (Own t) → o !! k = Some t.
Proof.
  unfold obj_get. destruct (o !! k); [congruence|]. by case_bool_decide.
Qed.

Lemma post_mcp_ids req o s :
  consistent s →
  let r := post_mcp req o s in
  match outcome_header r.2 with
  | Some sid0 =>
      (if_truthy (mcp_session_id req) = None ∧
       is_initialize (body req) = true ∧ minted o = Some sid0) ∧
      ∀ sid, known r.1 sid ↔ known s sid ∨ sid = sid0
  | None => ∀ sid, known r.1 sid ↔ known s sid
  end.
Proof.
  intros Hs. cbv zeta.
  destruct (if_truthy (mcp_session_id req)) as [k|] eqn:Hh.
  - destruct (obj_get (transports s) k) as [[t|n]|] eqn:Hg.
    + apply obj_get_Own_inv in Hg.
      rewrite (post_mcp_reuse _ _ _ _ _ Hh Hg).
      pose proof (handleRequest_ids POST t o s) as H. cbv zeta in H.
      destruct (outcome_header (handleRequest POST t o s).2); [|done].
      destruct H as [(_ & _ & T & Ht & Hid) _].
      apply (cons_registry _ Hs) in Hg as (T' & ? & ? & _). congruence.
    + unfold post_mcp. by rewrite Hh, Hg.
    + by rewrite (post_mcp_unknown _ _ _ _ Hh Hg).
  - destruct (is_initialize (body req)) eqn:Hb;
      [|by rewrite (post_mcp_missing _ _ _ Hh Hb)].
    rewrite (post_mcp_create _ _ _ Hh Hb).
    pose proof (handleRequest_ids POST (length (heap s)) o (new_transport s).2)
      as H.
    cbv zeta in H.
    destruct (outcome_header
                (handleRequest POST (length (heap s)) o (new_transport s).2).2).
    + destruct H as [(_ & Hm & _) Hk]. split; [done|].
      intros sid. by rewrite Hk, (known_new_transport s sid).
    + intros sid. by rewrite H, (known_new_transport s sid).
Qed.

Lemma handleSessionRequest_ids m req o s :
  m ≠ POST →
  let r := handleSessionRequest m req o s in
  outcome_header r.2 = None ∧ ∀ sid, known r.1 sid ↔ known s sid.
Proof.
  intros Hm. unfold handleSessionRequest.
  destruct (if_truthy (mcp_session_id req)) as [k|]; [|done].
  destruct (obj_get (transports s) k) as [[t|n]|]; try done.
  pose proof (handleRequest_ids m t o s) as H. cbv zeta in *.
  destruct (outcome_header (handleRequest m t o s).2); [|done].
  by destruct H as [[? _] _].
Qed.

Lemma exec_ids cfg l s :
  consistent s →
  match header_set (l, (exec cfg l s).2) with
  | Some sid0 =>
      (∃ req o, l = PostMcp req o ∧ if_truthy (mcp_session_id req) = None ∧
         is_initialize (body req) = true ∧ minted o = Some sid0) ∧
      ∀ sid, known (exec cfg l s).1 sid ↔ known s sid ∨ sid = sid0
  | None => ∀ sid, known (exec cfg l s).1 sid ↔ known s sid
  end.
Proof.
  intros Hs. unfold header_set.
  destruct l as [req o|req o|req o|req now|t]; simpl.
  - pose proof (post_mcp_ids req o s Hs) as H. cbv zeta in H.
    destruct (post_mcp req o s) as [s' out]. simpl in *.
    destruct (outcome_header out); [|done].
    destruct H as [(? & ? & ?) ?]. split; [|done]. by exists req, o.
  - destruct (handleSessionRequest_ids GET req o s) as [H1 H2]; [done|].
    destruct (handleSessionRequest GET req o s) as [s' out]. simpl in *.
    by rewrite H1.
  - destruct (handleSessionRequest_ids DELETE req o s) as [H1 H2]; [done|].
    destruct (handleSessionRequest DELETE req o s) as [s' out]. simpl in *.
    by rewrite H1.
  - done.
  - intros sid. apply known_sdk_close.
Qed.

Lemma run_times_set cfg tr s :
  run cfg tr s →
  ∀ sid, times_set sid tr = if fresh sid s then 0 else 1.
Proof.
  induction 1 as [|tr s l Hrun IH Hok]; intros sid; [done|].
  pose proof (exec_ids cfg l s (run_consistent _ _ _ Hrun)) as Hstep.
  set (s' := (exec cfg l s).1) in *. set (e := (l, (exec cfg l s).2)) in *.
  unfold times_set in *. rewrite filter_cons.
  destruct (header_set e) as [sid0|] eqn:Hset.
  - destruct Hstep as [(req & o & Hl & _ & _ & Hm) Hk].
    assert (fresh sid0 s = true) as Hfresh.
    { rewrite Hl in Hok. simpl in Hok. unfold mint_ok in Hok.
      rewrite Hm in Hok. by apply andb_true_iff in Hok as [_ ?]. }
    destruct (decide (Some sid0 = Some sid)) as [[= ->]|Hne].
    + cbn [length]. rewrite IH, Hfresh.
      assert (fresh sid s' = false) as ->; [|done].
      apply not_true_is_false. rewrite fresh_known, Hk. tauto.
    + rewrite IH. rewrite (fresh_ext sid s s'); [done|].
      rewrite Hk. split; [|tauto]. intros [?| ->]; [done|congruence].
  - rewrite decide_False by done. rewrite IH.
    by rewrite (fresh_ext sid s s').
Qed.

(** C8, as stated, fails: the response object is handed to the SDK
    transport (lines 150 and 167), which writes the header itself.  After the
    creation response of session [a_uuid], which carries the header, the
    response to a later POST of that session carries it again, although this
    module made no [res.setHeader] call on it. *)
Lemma later_response_carries_session_header :
  let later_req := Request (Some a_uuid) (Some ping_body) in
  let r := post_mcp later_req (SdkResult None false) s_open in
  header_set (open_a, (exec cfg0 open_a init).2) = Some a_uuid ∧
  carried (PostMcp later_req (SdkResult None false)) = Some a_uuid ∧
  r.2 = Delegated 0 [] ∧
  outcome_header r.2 = None ∧
  wire_header POST true r.1 r.2 = Some a_uuid.
Proof. repeat split. Qed.

(** C8 (amended): on every history of the server, each session id that was
    assigned to a transport was put on exactly one response by this module; a
    response is given the header by this module only when it answers a
    request without session id whose body is an initialize message, and the
    value is the id minted while that request was handled; a response to a
    request that presents a session id is never given it by this module. *)
Theorem session_header_set_once (cfg : config) (tr : list event) (s : state) :
  run cfg tr s →
  (∀ sid, known s sid → times_set sid tr = 1) ∧
  (∀ e sid, e ∈ tr → header_set e = Some sid →
     ∃ req o, e.1 = PostMcp req o ∧
       if_truthy (mcp_session_id req) = None ∧
       is_initialize (body req) = true ∧
       minted o = Some sid) ∧
  (∀ e, e ∈ tr → is_Some (carried e.1) → header_set e = None).
Proof.
  intros Hrun.
  assert (∀ e sid, e ∈ tr → header_set e = Some sid →
     ∃ req o, e.1 = PostMcp req o ∧
       if_truthy (mcp_session_id req) = None ∧
       is_initialize (body req) = true ∧
       minted o = Some sid) as Hcreate.
  { clear -Hrun. induction Hrun as [|tr s l Hrun IH Hok]; intros e sid.
    - by intros ?%elem_of_nil.
    - intros [->|Hin]%elem_of_cons Hset; [|by eapply IH].
      pose proof (exec_ids cfg l s (run_consistent _ _ _ Hrun)) as Hstep.
      rewrite Hset in Hstep. by destruct Hstep as [? _]. }
  split; [|split; [done|]].
  - intros sid Hk. rewrite (run_times_set _ _ _ Hrun).
    destruct (fresh sid s) eqn:E; [|done]. by apply fresh_known in E.
  - intros e Hin [h Hh].
    destruct (header_set e) as [sid|] eqn:Hset; [|done].
    destruct (Hcreate e sid Hin Hset) as (req & o & He & Hnone & _).
    rewrite He in Hh. simpl in Hh. congruence.
Qed.

(** * The properties on a concrete history *)

Example uuid_shaped_a : uuid_shaped a_uuid = true.
Proof. reflexivity. Qed.

Example uuid_shaped_upper_case : uuid_shaped "123E4567-E89B-42D3-A456-426614174000" = false.
Proof. reflexivity. Qed.

Example is_initialize_batch :
  is_initialize (Some (JArr [initialize_body])) = false.
Proof. reflexivity. Qed.

Example is_initialize_last_key_wins :
  is_initialize (Some (JObj [("method", JStr "initialize"); ("method", JStr "ping")]))
  = false.
Proof. reflexivity. Qed.

Example open_a_outcome :
  (exec cfg0 open_a init).2 = Some (Delegated 0 [("mcp-session-id", a_uuid)]) ∧
  transports s_open !! a_uuid = Some 0 ∧
  heap s_open = [Transport (Some a_uuid) false].
Proof. done. Qed.

Example end_a_outcome :
  (exec cfg0 end_a s_open).2 = Some (Delegated 0 []) ∧
  transports s_ended = ∅ ∧
  heap s_ended = [Transport (Some a_uuid) true].
Proof. done. Qed.

Example post_inherited_name_throws :
  post_mcp (Request (Some "toString") (Some ping_body)) (SdkResult None false) s_open
  = (s_open, Threw).
Proof. reflexivity. Qed.

Lemma run_open : run cfg0 tr_open s_open.
Proof. exact (run_step cfg0 [] init open_a (run_init cfg0) eq_refl). Defined.

Lemma run_ended : run cfg0 tr_ended s_ended.
Proof. exact (run_step cfg0 tr_open s_open end_a run_open eq_refl). Defined.

Lemma post_mcp_routing_witness :
  (∃ hs, (post_mcp (Request (Some a_uuid) (Some ping_body)) (SdkResult None false) s_open).2
         = Delegated 0 hs) ∧
  (∃ hs, (post_mcp (Request (Some "") (Some initialize_body))
            (SdkResult (Some b_uuid) false) s_open).2 = Delegated 1 hs) ∧
  post_mcp (Request (Some b_uuid) (Some ping_body)) (SdkResult None false) s_open
    = (s_open, Responded bad_request) ∧
  post_mcp (Request None (Some ping_body)) (SdkResult None false) s_open
    = (s_open, Responded bad_request).
Proof.
  split; [|split; [|split]].
  - destruct (post_mcp_routing (Request (Some a_uuid) (Some ping_body))
                (SdkResult None false) s_open) as (H & _).
    destruct (H a_uuid 0) as (_ & Hd & _);
      [reflexivity|discriminate|reflexivity|exact Hd].
  - destruct (post_mcp_routing (Request (Some "") (Some initialize_body))
                (SdkResult (Some b_uuid) false) s_open) as (_ & H & _).
    destruct H as (_ & Hd & _); [right; reflexivity|reflexivity|exact Hd].
  - destruct (post_mcp_routing (Request (Some b_uuid) (Some ping_body))
                (SdkResult None false) s_open) as (_ & _ & H & _).
    destruct (H b_uuid) as (Hr & _);
      [reflexivity|discriminate|reflexivity| |exact Hr].
    apply uuid_shaped_not_inherited. reflexivity.
  - destruct (post_mcp_routing (Request None (Some ping_body))
                (SdkResult None false) s_open) as (_ & _ & _ & H).
    destruct H as (Hr & _); [left; reflexivity|reflexivity|exact Hr].
Defined.

Lemma post_mcp_rejection_shape_witness :
  status bad_request = 400%Z ∧
  sent bad_request = SendJson (JObj
    [ ("jsonrpc", JStr "2.0");
      ("error", JObj [ ("code", JNum (-32000));
                       ("message", JStr "Bad Request: No valid session ID provided") ]);
      ("id", JNull) ]) ∧
  (if_truthy (Some b_uuid) = None ∧ is_initialize (Some ping_body) = false ∨
   ∃ sid, if_truthy (Some b_uuid) = Some sid ∧
          obj_get (transports s_open) sid = None).
Proof.
  apply (post_mcp_rejection_shape (Request (Some b_uuid) (Some ping_body))
           (SdkResult None false) s_open s_open bad_request).
  reflexivity.
Defined.

Lemma onsessioninitialized_registers_witness :
  obj_get (transports (onsessioninitialized 1 a_uuid s_open).1) a_uuid = Some (Own 1) ∧
  (∀ k, k ≠ a_uuid →
     obj_get (transports (onsessioninitialized 1 a_uuid s_open).1) k
     = obj_get (transports s_open) k) ∧
  heap (onsessioninitialized 1 a_uuid s_open).1 = heap s_open.
Proof. apply (onsessioninitialized_registers 1 a_uuid s_open). reflexivity. Defined.

Lemma rejection_leaves_state_witness :
  (exec cfg0 (GetMcp (Request None None) (SdkResult None false)) s_open).1 = s_open.
Proof.
  apply (rejection_leaves_state cfg0 (GetMcp (Request None None) (SdkResult None false))
           s_open invalid_session).
  - reflexivity.
  - reflexivity.
Defined.

Lemma onclose_evicts_own_id_only_witness :
  let s := State {[ a_uuid := 0 ]} [Transport (Some a_uuid) false; Transport None true] in
  onclose 1 s = s ∧
  transports (onclose 0 s) = delete a_uuid (transports s) ∧
  heap (onclose 0 s) = heap s.
Proof.
  intros s. split; [|split].
  - destruct (onclose_evicts_own_id_only 1 s (Transport None true)) as (H & _);
      [reflexivity|].
    apply H. reflexivity.
  - destruct (onclose_evicts_own_id_only 0 s (Transport (Some a_uuid) false))
      as (_ & _ & H & _); [reflexivity|].
    apply (H a_uuid); [reflexivity|discriminate].
  - destruct (onclose_evicts_own_id_only 0 s (Transport (Some a_uuid) false))
      as (_ & _ & _ & H); [reflexivity|exact H].
Defined.

Lemma registry_invariant_witness :
  (∀ t T, heap s_ended !! t = Some T →
     ((∃ k, transports s_ended !! k = Some t) ↔
      closed T = false ∧ sessionId T ≠ None)) ∧
  (∀ k t, transports s_ended !! k = Some t →
     ∃ T, heap s_ended !! t = Some T ∧ sessionId T = Some k ∧ closed T = false) ∧
  (∀ t k, transports (sdk_close t s_ended) !! k ≠ Some t).
Proof. exact (registry_invariant cfg0 tr_ended s_ended run_ended). Defined.

Lemma health_report_witness :
  health cfg0 (Request (Some "bogus") None) "2025-10-29T00:00:00.000Z" s_open =
    Response 200 (SendJson (JObj
      [ ("status", JStr "healthy");
        ("timestamp", JStr "2025-10-29T00:00:00.000Z");
        ("activeSessions", JNum (Z.of_nat (count_bound (heap s_open))));
        ("serverName", JStr (serverName cfg0));
        ("serverVersion", JStr (serverVersion cfg0)) ])) ∧
  obj_keys_length (transports s_open) = count_bound (heap s_open) ∧
  (∀ req', health cfg0 req' "2025-10-29T00:00:00.000Z" s_open
           = health cfg0 (Request (Some "bogus") None) "2025-10-29T00:00:00.000Z" s_open).
Proof.
  exact (health_report cfg0 tr_open s_open (Request (Some "bogus") None)
           "2025-10-29T00:00:00.000Z" run_open).
Defined.

Lemma closed_with_ended : closed_with s_ended 0 a_uuid.
Proof. exists (Transport (Some a_uuid) true). repeat split. Defined.

Lemma closed_session_is_unknown_witness :
  let s' := (exec cfg0 (GetHealth (Request None None) "now") s_ended).1 in
  let req := Request (Some a_uuid) (Some ping_body) in
  let o := SdkResult None false in
  transports s' !! a_uuid = None ∧
  post_mcp req o s' = (s', Responded bad_request) ∧
  handleSessionRequest GET req o s' = (s', Responded invalid_session) ∧
  handleSessionRequest DELETE req o s' = (s', Responded invalid_session) ∧
  (post_mcp req o s').2 = (post_mcp req o init).2 ∧
  (∀ m, (handleSessionRequest m req o s').2 = (handleSessionRequest m req o init).2).
Proof.
  intros s' req o.
  apply (closed_session_is_unknown cfg0 tr_ended s_ended s' 0 a_uuid
           (Some ping_body) o run_ended closed_with_ended).
  exact (later_step cfg0 s_ended s_ended (GetHealth (Request None None) "now")
           (later_refl cfg0 s_ended) eq_refl).
Defined.

Lemma session_header_set_once_witness :
  (∀ sid, known s_ended sid → times_set sid tr_ended = 1) ∧
  (∀ e sid, e ∈ tr_ended → header_set e = Some sid →
     ∃ req o, e.1 = PostMcp req o ∧
       if_truthy (mcp_session_id req) = None ∧
       is_initialize (body req) = true ∧
       minted o = Some sid) ∧
  (∀ e, e ∈ tr_ended → is_Some (carried e.1) → header_set e = None).
Proof. exact (session_header_set_once cfg0 tr_ended s_ended run_ended). Defined.

(** * Further properties of the handlers *)

(** ** What a request leaves alone *)

Lemma sdk_close_frame s t' :
  (∀ k, (∀ T', heap s !! t' = Some T' → sessionId T' ≠ Some k) →
        transports (sdk_close t' s) !! k = transports s !! k) ∧
  (∀ t, t ≠ t' → heap (sdk_close t' s) !! t = heap s !! t).
Proof.
  destruct (heap s !! t') as [T'|] eqn:Ht';
    [|by rewrite sdk_close_missing].
  rewrite (sdk_close_eq _ _ _ Ht'). simpl. split.
  - intros k Hk. destruct (if_truthy (sessionId T')) as [sid|] eqn:E; [|done].
    apply if_truthy_Some in E as [E _]. apply lookup_delete_ne.
    intros ->. by apply (Hk T').
  - intros t Hne. by apply list_lookup_insert_ne.
Qed.

Lemma sdk_initialize_frame s t' sid0 :
  (∀ k, k ≠ sid0 →
        transports (sdk_initialize t' sid0 s).1 !! k = transports s !! k) ∧
  (∀ t, t ≠ t' → heap (sdk_initialize t' sid0 s).1 !! t = heap s !! t) ∧
  (∀ T k, heap (sdk_initialize t' sid0 s).1 !! t' = Some T →
          sessionId T = Some k →
          k = sid0 ∨ ∃ T0, heap s !! t' = Some T0 ∧ sessionId T0 = Some k).
Proof.
  unfold sdk_initialize.
  destruct (heap s !! t') as [T'|] eqn:Ht'.
  2: { split; [done|]. split; [done|]. simpl. intros T k HT. congruence. }
  destruct (sessionId T') as [sid'|] eqn:Hid'.
  - split; [done|]. split; [done|]. simpl. intros T k HT Hk. right.
    exists T'. rewrite Ht' in HT. by simplify_eq.
  - simpl. split; [|split].
    + intros k Hk. by apply lookup_insert_ne.
    + intros t Hne. by apply list_lookup_insert_ne.
    + intros T k HT Hk. left.
      rewrite list_lookup_insert_eq in HT by (by eapply lookup_lt_Some).
      by simplify_eq/=.
Qed.

Lemma handleRequest_frame m t' o s k t :
  t ≠ t' → minted o ≠ Some k →
  (∀ T', heap s !! t' = Some T' → sessionId T' ≠ Some k) →
  transports (handleRequest m t' o s).1 !! k = transports s !! k ∧
  heap (handleRequest m t' o s).1 !! t = heap s !! t.
Proof.
  intros Hne Hmint Hown. unfold handleRequest.
  assert (let r := match m, minted o with
                   | POST, Some sid => sdk_initialize t' sid s
                   | _, _ => (s, [])
                   end in
          transports r.1 !! k = transports s !! k ∧
          heap r.1 !! t = heap s !! t ∧
          ∀ T', heap r.1 !! t' = Some T' → sessionId T' ≠ Some k) as H1.
  { destruct m; try done. destruct (minted o) as [sid0|] eqn:Hm; [|done].
    destruct (sdk_initialize_frame s t' sid0) as (Hr & Hh & Hi).
    cbv zeta. split; [apply Hr; congruence|]. split; [by apply Hh|].
    intros T' HT' Hk. destruct (Hi _ _ HT' Hk) as [->|(T0 & HT0 & Hk0)].
    - congruence.
    - by apply (Hown T0). }
  destruct (match m, minted o with
            | POST, Some sid => sdk_initialize t' sid s
            | _, _ => (s, [])
            end) as [s1 hs].
  cbv zeta in H1. simpl in *. destruct H1 as (Hr & Hh & Hi).
  destruct (closes o); [|done].
  destruct (sdk_close_frame s1 t') as [Hcr Hch].
  rewrite Hcr, Hch by done. done.
Qed.

Lemma registered_transport s k t :
  consistent s → transports s !! k = Some t →
  ∃ T, heap s !! t = Some T ∧ sessionId T = Some k ∧ closed T = false.
Proof. intros Hs Hk. by apply (cons_registry _ Hs). Qed.

Lemma minted_not_registered o s k t :
  consistent s → mint_ok o s = true → transports s !! k = Some t →
  minted o ≠ Some k.
Proof.
  intros Hs Hok Hk Hm. unfold mint_ok in Hok. rewrite Hm in Hok.
  apply andb_true_iff in Hok as [_ Hf]. rewrite fresh_spec in Hf.
  destruct (registered_transport _ _ _ Hs Hk) as (T & HT & Hid & _).
  by apply (Hf _ _ HT).
Qed.

Lemma delegated_frame m t' sid' o s k t :
  consistent s → mint_ok o s = true →
  transports s !! sid' = Some t' → transports s !! k = Some t → k ≠ sid' →
  transports (handleRequest m t' o s).1 !! k = Some t ∧
  heap (handleRequest m t' o s).1 !! t = heap s !! t.
Proof.
  intros Hs Hok Hs' Hk Hne.
  destruct (registered_transport _ _ _ Hs Hs') as (T' & HT' & Hid' & _).
  destruct (registered_transport _ _ _ Hs Hk) as (T & HT & Hid & _).
  rewrite <-Hk. apply handleRequest_frame.
  - intros ->. congruence.
  - by eapply minted_not_registered.
  - intros T0 HT0. congruence.
Qed.

(** X1: at every reachable state, an entry of [transports] is kept by every
    step that neither is a request presenting that entry's session id nor the
    engine closing that entry's transport, and the [sessionId] and [closed]
    of its transport stay as they were.  This is about the registry only:
    what [server.connect] (line 136) does to the protocol engine when a
    further transport is connected is not part of [state]. *)
Theorem registry_entry_kept (cfg : config) (tr : list event) (s : state)
  (l : label) (k : string) (t : tid) :
  run cfg tr s →
  label_ok l s = true →
  transports s !! k = Some t →
  carried l ≠ Some k →
  l ≠ EngineClose t →
  transports (exec cfg l s).1 !! k = Some t ∧
  heap (exec cfg l s).1 !! t = heap s !! t.
Proof.
  intros Hs%run_consistent Hok Hk Hcar Hl.
  destruct (registered_transport _ _ _ Hs Hk) as (T & HT & Hid & Hopen).
  destruct l as [req o|req o|req o|req now|t']; simpl in *.
  - assert (transports (post_mcp req o s).1 !! k = Some t ∧
            heap (post_mcp req o s).1 !! t = heap s !! t) as H1.
    { destruct (if_truthy (mcp_session_id req)) as [sid'|] eqn:Hh.
      - destruct (obj_get (transports s) sid') as [[t'|n]|] eqn:Hg.
        + apply obj_get_Own_inv in Hg.
          rewrite (post_mcp_reuse _ _ _ _ _ Hh Hg).
          apply (delegated_frame POST t' sid'); try done. congruence.
        + unfold post_mcp. by rewrite Hh, Hg.
        + by rewrite (post_mcp_unknown _ _ _ _ Hh Hg).
      - destruct (is_initialize (body req)) eqn:Hb;
          [|by rewrite (post_mcp_missing _ _ _ Hh Hb)].
        rewrite (post_mcp_create _ _ _ Hh Hb).
        assert (t < length (heap s)) as Hlt by (by eapply lookup_lt_Some).
        destruct (handleRequest_frame POST (length (heap s)) o
                    (new_transport s).2 k t) as [Hr Hh'].
        + lia.
        + by eapply minted_not_registered.
        + simpl. intros T' [[? _]|[_ <-]]%lookup_snoc_Some; [lia|done].
        + rewrite Hr, Hh'. simpl. split; [done|]. by apply lookup_app_l. }
    by destruct (post_mcp req o s).
  - assert (transports (handleSessionRequest GET req o s).1 !! k = Some t ∧
            heap (handleSessionRequest GET req o s).1 !! t = heap s !! t) as H1.
    { unfold handleSessionRequest.
      destruct (if_truthy (mcp_session_id req)) as [sid'|] eqn:Hh; [|done].
      destruct (obj_get (transports s) sid') as [[t'|n]|] eqn:Hg; try done.
      apply obj_get_Own_inv in Hg.
      apply (delegated_frame GET t' sid'); try done. congruence. }
    by destruct (handleSessionRequest GET req o s).
  - assert (transports (handleSessionRequest DELETE req o s).1 !! k = Some t ∧
            heap (handleSessionRequest DELETE req o s).1 !! t = heap s !! t) as H1.
    { unfold handleSessionRequest.
      destruct (if_truthy (mcp_session_id req)) as [sid'|] eqn:Hh; [|done].
      destruct (obj_get (transports s) sid') as [[t'|n]|] eqn:Hg; try done.
      apply obj_get_Own_inv in Hg.
      apply (delegated_frame DELETE t' sid'); try done. congruence. }
    by destruct (handleSessionRequest DELETE req o s).
  - done.
  - destruct (sdk_close_frame s t') as [Hcr Hch].
    rewrite Hcr, Hch.
    + done.
    + congruence.
    + intros T' HT' Hid'.
      assert (t' = t) as -> by (by eapply (cons_unique _ Hs)). done.
Qed.

(** ** A session id stays with its transport *)

Lemma holds_sdk_close s t sid t' : holds s t sid → holds (sdk_close t' s) t sid.
Proof.
  intros (T & Ht & Hid).
  destruct (heap s !! t') as [T'|] eqn:Ht';
    [|rewrite sdk_close_missing by done; by exists T].
  rewrite (sdk_close_eq _ _ _ Ht'). unfold holds. simpl.
  destruct (decide (t' = t)) as [->|Hne].
  - rewrite list_lookup_insert_eq by (by eapply lookup_lt_Some).
    simplify_eq. by eexists.
  - rewrite list_lookup_insert_ne by done. by exists T.
Qed.

Lemma holds_sdk_initialize s t sid t' sid' :
  holds s t sid → holds (sdk_initialize t' sid' s).1 t sid.
Proof.
  intros (T & Ht & Hid). unfold sdk_initialize.
  destruct (heap s !! t') as [T'|] eqn:Ht'; [|by exists T].
  destruct (sessionId T') eqn:Hid'; [by exists T|].
  unfold holds. simpl.
  rewrite list_lookup_insert_ne; [by exists T|]. intros ->. congruence.
Qed.

Lemma holds_handleRequest s t sid m t' o :
  holds s t sid → holds (handleRequest m t' o s).1 t sid.
Proof.
  intros H. unfold handleRequest.
  assert (holds
    (match m, minted o with
     | POST, Some sid' => sdk_initialize t' sid' s
     | _, _ => (s, [])
     end).1 t sid) as H1.
  { destruct m, (minted o); try done. by apply holds_sdk_initialize. }
  destruct (match m, minted o with
            | POST, Some sid' => sdk_initialize t' sid' s
            | _, _ => (s, [])
            end) as [s1 hs].
  simpl in *. destruct (closes o); [|done]. by apply holds_sdk_close.
Qed.

Lemma holds_exec cfg l s t sid : holds s t sid → holds (exec cfg l s).1 t sid.
Proof.
  intros H. destruct l as [req o|req o|req o|req now|t']; simpl.
  - assert (holds (post_mcp req o s).1 t sid) as H1.
    { unfold post_mcp. destruct (if_truthy (mcp_session_id req)) as [k|].
      - destruct (obj_get (transports s) k) as [[t'|n]|]; try done.
        by apply holds_handleRequest.
      - destruct (is_initialize (body req)); [|done].
        apply holds_handleRequest.
        destruct H as (T & Ht & ?). exists T. split; [|done].
        by apply lookup_app_l_Some. }
    by destruct (post_mcp req o s).
  - assert (holds (handleSessionRequest GET req o s).1 t sid) as H1.
    { unfold handleSessionRequest.
      destruct (if_truthy (mcp_session_id req)) as [k|]; [|done].
      destruct (obj_get (transports s) k) as [[t'|n]|]; try done.
      by apply holds_handleRequest. }
    by destruct (handleSessionRequest GET req o s).
  - assert (holds (handleSessionRequest DELETE req o s).1 t sid) as H1.
    { unfold handleSessionRequest.
      destruct (if_truthy (mcp_session_id req)) as [k|]; [|done].
      destruct (obj_get (transports s) k) as [[t'|n]|]; try done.
      by apply holds_handleRequest. }
    by destruct (handleSessionRequest DELETE req o s).
  - done.
  - by apply holds_sdk_close.
Qed.

Lemma holds_later cfg s s' t sid : later cfg s s' → holds s t sid → holds s' t sid.
Proof.
  induction 1 as [|s' l _ IH _]; [done|].
  intros H. by apply holds_exec, IH.
Qed.

(** X2: a session id registered for a transport is never rebound.  At every
    later state the id still resolves to the same transport, which is then
    open, or it resolves to nothing and that transport is closed. *)
Theorem binding_is_stable (cfg : config) (tr : list event) (s s' : state)
  (sid : string) (t : tid) :
  run cfg tr s →
  transports s !! sid = Some t →
  later cfg s s' →
  (transports s' !! sid = Some t ∨
   transports s' !! sid = None ∧ closed_with s' t sid) ∧
  (∀ t', transports s' !! sid = Some t' → t' = t).
Proof.
  intros Hs%run_consistent Hk Hlater.
  pose proof (later_consistent _ _ _ Hlater Hs) as Hs'.
  destruct (registered_transport _ _ _ Hs Hk) as (T & HT & Hid & _).
  assert (holds s' t sid) as (T' & HT' & Hid')
    by (eapply holds_later; [done|by exists T]).
  assert (transports s' !! sid = Some t ∨
          transports s' !! sid = None ∧ closed_with s' t sid) as H.
  { destruct (closed T') eqn:Hc.
    - right. assert (closed_with s' t sid) as Hcl by (by exists T').
      split; [|done].
      destruct (closed_with_unregistered _ _ _ Hs' Hcl) as [_ Hg].
      apply obj_get_None in Hg. tauto.
    - left. apply (cons_registry _ Hs'). by exists T'. }
  split; [done|]. intros t' Ht'. destruct H as [H|[H _]]; congruence.
Qed.

(** ** Which transport handles a request *)

Lemma handleRequest_bound m t o s T sid :
  heap s !! t = Some T → sessionId T = Some sid →
  handleRequest m t o s
  = ((if closes o then sdk_close t s else s), Delegated t []).
Proof.
  intros Ht Hid. unfold handleRequest, sdk_initialize. rewrite Ht, Hid.
  by destruct m, (minted o).
Qed.

(** X3: at every reachable state, a request that presents a session id and
    is handed to a transport is handed to the transport registered under
    that id, which holds that id and is not closed; this module sets no
    header on its response. *)
Theorem delegated_transport_is_live (cfg : config) (tr : list event) (s : state)
  (l : label) (sid : string) (t : tid) (hs : list (string * string)) :
  run cfg tr s →
  carried l = Some sid →
  (exec cfg l s).2 = Some (Delegated t hs) →
  transports s !! sid = Some t ∧
  (∃ T, heap s !! t = Some T ∧ sessionId T = Some sid ∧ closed T = false) ∧
  hs = [].
Proof.
  intros Hs%run_consistent Hcar Hout.
  destruct l as [req o|req o|req o|req now|t']; simpl in *; try done.
  - unfold post_mcp in Hout. rewrite Hcar in Hout.
    destruct (obj_get (transports s) sid) as [[t'|n]|] eqn:Hg; try done.
    apply obj_get_Own_inv in Hg.
    destruct (registered_transport _ _ _ Hs Hg) as (T & HT & Hid & Hc).
    rewrite (handleRequest_bound _ _ _ _ _ _ HT Hid) in Hout.
    simpl in Hout. injection Hout as <- <-. split; [done|]. split; [|done].
    by exists T.
  - unfold handleSessionRequest in Hout. rewrite Hcar in Hout.
    destruct (obj_get (transports s) sid) as [[t'|n]|] eqn:Hg; try done.
    apply obj_get_Own_inv in Hg.
    destruct (registered_transport _ _ _ Hs Hg) as (T & HT & Hid & Hc).
    rewrite (handleRequest_bound _ _ _ _ _ _ HT Hid) in Hout.
    simpl in Hout. injection Hout as <- <-. split; [done|]. split; [|done].
    by exists T.
  - unfold handleSessionRequest in Hout. rewrite Hcar in Hout.
    destruct (obj_get (transports s) sid) as [[t'|n]|] eqn:Hg; try done.
    apply obj_get_Own_inv in Hg.
    destruct (registered_transport _ _ _ Hs Hg) as (T & HT & Hid & Hc).
    rewrite (handleRequest_bound _ _ _ _ _ _ HT Hid) in Hout.
    simpl in Hout. injection Hout as <- <-. split; [done|]. split; [|done].
    by exists T.
Qed.

(** X4: a request that presents no session id (no header, or an empty one)
    never reaches a transport that existed before it: if it is handed to a
    transport at all, the request is a POST with an initialize body and the
    transport is the one created for it. *)
Theorem no_session_id_no_session (cfg : config) (l : label) (s : state)
  (t : tid) (hs : list (string * string)) :
  carried l = None →
  (exec cfg l s).2 = Some (Delegated t hs) →
  t = length (heap s) ∧
  heap s !! t = None ∧
  ∃ req o, l = PostMcp req o ∧ is_initialize (body req) = true.
Proof.
  intros Hcar Hout.
  destruct l as [req o|req o|req o|req now|t']; simpl in *; try done.
  - destruct (is_initialize (body req)) eqn:Hb.
    + rewrite (post_mcp_create _ _ _ Hcar Hb) in Hout.
      destruct (handleRequest_outcome POST (length (heap s)) o
                  (new_transport s).2) as [hs' Ho].
      destruct (handleRequest POST _ o _) as [s' out]. simpl in *.
      simplify_eq. split; [done|]. split; [by apply lookup_ge_None_2|].
      by exists req, o.
    + by rewrite (post_mcp_missing _ _ _ Hcar Hb) in Hout.
  - unfold handleSessionRequest in Hout. by rewrite Hcar in Hout.
  - unfold handleSessionRequest in Hout. by rewrite Hcar in Hout.
Qed.

(** ** GET and DELETE only ever remove *)

Lemma sdk_close_shrinks s t k v :
  transports (sdk_close t s) !! k = Some v → transports s !! k = Some v.
Proof.
  destruct (heap s !! t) as [T|] eqn:Ht; [|by rewrite sdk_close_missing].
  rewrite (sdk_close_eq _ _ _ Ht). simpl.
  destruct (if_truthy (sessionId T)); [|done].
  by intros [_ ?]%lookup_delete_Some.
Qed.

(** X5: whatever the state and the request, the GET and DELETE handler
    creates no transport and registers nothing: the number of transports
    stays the same, every entry of [transports] afterwards was there
    before, and no transport changes its session id. *)
Theorem handleSessionRequest_only_removes (m : method) (req : request)
  (o : sdk_result) (s : state) :
  m ≠ POST →
  length (heap (handleSessionRequest m req o s).1) = length (heap s) ∧
  (∀ k t, transports (handleSessionRequest m req o s).1 !! k = Some t →
          transports s !! k = Some t) ∧
  (∀ sid, known (handleSessionRequest m req o s).1 sid ↔ known s sid).
Proof.
  intros Hm. split; [|split].
  - unfold handleSessionRequest.
    destruct (if_truthy (mcp_session_id req)) as [sid|]; [|done].
    destruct (obj_get (transports s) sid) as [[t|n]|]; try done.
    apply handleRequest_heap_length.
  - intros k t. unfold handleSessionRequest.
    destruct (if_truthy (mcp_session_id req)) as [sid|]; [|done].
    destruct (obj_get (transports s) sid) as [[t'|n]|]; try done.
    unfold handleRequest. destruct m; [done| |]; simpl;
      (destruct (closes o); [apply sdk_close_shrinks|done]).
  - by destruct (handleSessionRequest_ids m req o s Hm) as [_ ?].
Qed.

(** ** When a handler throws *)

(** X6: the POST handler and the GET and DELETE handler throw exactly when
    the request presents a non-empty session id that is not a key of
    [transports] but names a member of [Object.prototype]; the state is then
    left as it was. *)
Theorem handlers_throw_iff (m : method) (req : request) (o : sdk_result)
  (s : state) :
  let inherited :=
    ∃ sid, if_truthy (mcp_session_id req) = Some sid ∧
           transports s !! sid = None ∧ sid ∈ object_prototype_names in
  ((post_mcp req o s).2 = Threw ↔ inherited) ∧
  ((handleSessionRequest m req o s).2 = Threw ↔ inherited) ∧
  ((post_mcp req o s).2 = Threw → (post_mcp req o s).1 = s) ∧
  ((handleSessionRequest m req o s).2 = Threw →
   (handleSessionRequest m req o s).1 = s).
Proof.
  intros inherited.
  assert (∀ sid, if_truthy (mcp_session_id req) = Some sid →
            (∃ n, obj_get (transports s) sid = Some (Inherited n)) ↔ inherited)
    as Hinh.
  { intros sid Hh. unfold inherited, obj_get. rewrite Hh. split.
    - intros [n Hn]. exists sid. split; [done|].
      destruct (transports s !! sid); [done|].
      by case_bool_decide.
    - intros (sid' & [= <-] & -> & Hin). exists sid.
      by rewrite bool_decide_eq_true_2. }
  assert (if_truthy (mcp_session_id req) = None → ¬ inherited) as Hnone.
  { intros Hh (sid & Hs & _). congruence. }
  unfold post_mcp, handleSessionRequest.
  destruct (if_truthy (mcp_session_id req)) as [sid|] eqn:Hh.
  - specialize (Hinh sid eq_refl).
    destruct (obj_get (transports s) sid) as [[t|n]|] eqn:Hg.
    + destruct (handleRequest_outcome POST t o s) as [hs1 H1].
      destruct (handleRequest_outcome m t o s) as [hs2 H2].
      rewrite H1, H2. repeat split; try done.
      all: intros Hi; apply Hinh in Hi as [? ?]; done.
    + repeat split; try done. all: intros _; apply Hinh; by exists n.
    + repeat split; try done.
      all: intros Hi; apply Hinh in Hi as [? ?]; done.
  - specialize (Hnone eq_refl).
    destruct (is_initialize (body req)).
    + simpl.
      destruct (handleRequest_outcome POST (length (heap s)) o
                  (State (transports s) (heap s ++ [Transport None false])))
        as [hs1 H1].
      rewrite H1. repeat split; done.
    + repeat split; done.
Qed.

(** ** Opening and ending a session *)

Lemma post_mcp_opens req sid s :
  if_truthy (mcp_session_id req) = None → is_initialize (body req) = true →
  post_mcp req (SdkResult (Some sid) false) s
  = (State (<[sid := length (heap s)]> (transports s))
           (heap s ++ [Transport (Some sid) false]),
     Delegated (length (heap s)) [("mcp-session-id", sid)]).
Proof.
  intros Hh Hb. rewrite (post_mcp_create _ _ _ Hh Hb).
  unfold handleRequest, sdk_initialize. simpl.
  rewrite list_lookup_middle by done. simpl.
  rewrite insert_app_r_alt by done. by rewrite Nat.sub_diag.
Qed.

(** X7: at a reachable state, a POST without session id and with an
    initialize body for which the SDK mints [sid] raises the number of keys
    of [transports] by one; a DELETE presenting [sid] that closes the
    transport then gives back exactly the [transports] there was before,
    and leaves the new transport behind, closed. *)
Theorem open_then_terminate (cfg : config) (tr : list event) (s : state)
  (req req' : request) (sid : string) :
  run cfg tr s →
  if_truthy (mcp_session_id req) = None →
  is_initialize (body req) = true →
  mint_ok (SdkResult (Some sid) false) s = true →
  mcp_session_id req' = Some sid →
  let s1 := (post_mcp req (SdkResult (Some sid) false) s).1 in
  let s2 := (handleSessionRequest DELETE req' (SdkResult None true) s1).1 in
  transports s1 !! sid = Some (length (heap s)) ∧
  obj_keys_length (transports s1) = S (obj_keys_length (transports s)) ∧
  transports s2 = transports s ∧
  heap s2 = (heap s ++ [Transport (Some sid) true])%list.
Proof.
  intros Hs%run_consistent Hh Hb Hok Hreq' s1 s2.
  unfold mint_ok in Hok. simpl in Hok.
  apply andb_true_iff in Hok as [Hu Hf].
  assert (transports s !! sid = None) as Hfree.
  { destruct (transports s !! sid) as [t|] eqn:E; [|done].
    destruct (registered_transport _ _ _ Hs E) as (T & HT & Hid & _).
    rewrite fresh_spec in Hf. by destruct (Hf _ _ HT). }
  assert (s1 = State (<[sid := length (heap s)]> (transports s))
                     (heap s ++ [Transport (Some sid) false])) as E1
    by (unfold s1; by rewrite (post_mcp_opens _ _ _ Hh Hb)).
  assert (transports s1 !! sid = Some (length (heap s))) as Hreg
    by (rewrite E1; apply lookup_insert_eq).
  assert (heap s1 !! length (heap s) = Some (Transport (Some sid) false)) as HT
    by (rewrite E1; by apply list_lookup_middle).
  split; [done|]. split.
  { rewrite E1. unfold obj_keys_length. simpl.
    by apply map_size_insert_None. }
  assert (s2 = sdk_close (length (heap s)) s1) as ->.
  { unfold s2, handleSessionRequest. rewrite Hreq', (if_truthy_uuid _ Hu).
    rewrite (obj_get_own _ _ _ Hreg).
    by rewrite (handleRequest_bound _ _ _ _ _ _ HT eq_refl). }
  rewrite (sdk_close_eq _ _ _ HT). simpl sessionId.
  rewrite (if_truthy_uuid _ Hu). simpl. rewrite E1. simpl. split.
  - rewrite delete_insert_eq. by apply delete_id.
  - rewrite insert_app_r_alt by done. by rewrite Nat.sub_diag.
Qed.

(** X8: closing a transport a second time changes nothing: the close
    handler may fire again after the entry is gone. *)
Theorem close_is_idempotent (t : tid) (s : state) :
  sdk_close t (sdk_close t s) = sdk_close t s.
Proof.
  destruct (heap s !! t) as [T|] eqn:Ht;
    [|by rewrite !(sdk_close_missing s t Ht)].
  rewrite (sdk_close_eq _ _ _ Ht).
  assert (t < length (heap s)) as Hlt by (by eapply lookup_lt_Some).
  rewrite (sdk_close_eq _ t (Transport (sessionId T) true))
    by (by apply list_lookup_insert_eq).
  simpl. rewrite list_insert_insert_eq.
  destruct (if_truthy (sessionId T)); [|done].
  by rewrite delete_delete_eq.
Qed.

(** ** What counts as a creation message *)

(** X9: a request body is a creation message exactly when it is a JSON
    object whose [method] member, the last one if the key is repeated, is
    the string [initialize]; a batch (an array), a string, a number,
    [null] and a missing body never are. *)
Theorem is_initialize_iff (b : option json) :
  is_initialize b = true ↔
  ∃ fields, b = Some (JObj fields) ∧
            get_field "method" fields = Some (JStr "initialize").
Proof.
  unfold is_initialize. split.
  - destruct b as [v|]; [|done].
    intros [_ H]%andb_true_iff.
    destruct v as [| | | | |fields]; try done. simpl in H.
    exists fields. split; [done|].
    destruct (get_field "method" fields) as [[| | |m| |]|]; try done.
    by apply String.eqb_eq in H as ->.
  - intros (fields & -> & H). simpl. by rewrite H.
Qed.

(** ** The keys of [transports] *)

(** X10: at every reachable state the keys of [transports] are UUIDs in
    canonical form, so none is empty or shadows a member of
    [Object.prototype]; each key resolves to an existing transport, and two
    different keys never resolve to the same transport. *)
Theorem registry_keys (cfg : config) (tr : list event) (s : state)
  (k : string) (t : tid) :
  run cfg tr s →
  transports s !! k = Some t →
  uuid_shaped k = true ∧ k ≠ "" ∧ (k ∉ object_prototype_names) ∧
  obj_get (transports s) k = Some (Own t) ∧
  t < length (heap s) ∧
  (∀ k', transports s !! k' = Some t → k' = k).
Proof.
  intros Hs%run_consistent Hk.
  destruct (registered_transport _ _ _ Hs Hk) as (T & HT & Hid & _).
  assert (uuid_shaped k = true) as Hu by (by eapply (cons_uuid _ Hs)).
  split; [done|]. split.
  { intros ->. discriminate Hu. }
  split; [by apply uuid_shaped_not_inherited|].
  split; [by apply obj_get_own|].
  split; [by eapply lookup_lt_Some|].
  intros k' Hk'.
  destruct (registered_transport _ _ _ Hs Hk') as (T' & HT' & Hid' & _).
  congruence.
Qed.

(** ** The listening port *)

(** X11: the server listens on the [port] argument exactly when the
    environment variable [PORT] is unset or empty; any other value of the
    variable is used as it is, whatever [port] is. *)
Theorem listen_port_default (env_PORT : option string) (port : Z) :
  (listen_port env_PORT port = PortDefault port ↔
   env_PORT = None ∨ env_PORT = Some "") ∧
  (∀ v, env_PORT = Some v → v ≠ "" → listen_port env_PORT port = PortEnv v).
Proof.
  unfold listen_port, truthy_string. split.
  - destruct env_PORT as [v|]; [|by split; [left|]].
    destruct (String.eqb_spec v "") as [->|Hne]; simpl; split.
    + by right.
    + done.
    + discriminate.
    + intros [?|[= ->]]; [discriminate|contradiction].
  - intros v -> Hne. by destruct (String.eqb_spec v "").
Qed.

(** ** What closing evicts *)

(** X12: at every reachable state, closing the transport registered under
    a key removes exactly that key, so the number of keys drops by one;
    closing a transport that is registered under no key (never initialised,
    or closed before) leaves [transports] as it was. *)
Theorem close_evicts_exactly (cfg : config) (tr : list event) (s : state)
  (t : tid) :
  run cfg tr s →
  (∀ k, transports s !! k = Some t →
     transports (sdk_close t s) = delete k (transports s) ∧
     obj_keys_length (transports (sdk_close t s))
     = pred (obj_keys_length (transports s))) ∧
  ((∀ k, transports s !! k ≠ Some t) →
     transports (sdk_close t s) = transports s).
Proof.
  intros Hs%run_consistent. split.
  - intros k Hk.
    destruct (registered_transport _ _ _ Hs Hk) as (T & HT & Hid & _).
    rewrite (sdk_close_eq _ _ _ HT). simpl. rewrite Hid.
    rewrite if_truthy_uuid by (by eapply (cons_uuid _ Hs)).
    split; [done|]. unfold obj_keys_length. by apply map_size_delete_Some.
  - intros Hnot.
    destruct (heap s !! t) as [T|] eqn:HT; [|by rewrite sdk_close_missing].
    rewrite (sdk_close_eq _ _ _ HT). simpl.
    destruct (if_truthy (sessionId T)) as [sid|] eqn:E; [|done].
    apply if_truthy_Some in E as [E _]. apply delete_id.
    destruct (transports s !! sid) as [t'|] eqn:Hsid; [|done].
    destruct (registered_transport _ _ _ Hs Hsid) as (T' & HT' & Hid' & _).
    assert (t' = t) as -> by (by eapply (cons_unique _ Hs)).
    by destruct (Hnot sid).
Qed.

(** * The further properties on the concrete history *)

Lemma registry_entry_kept_witness :
  let l := PostMcp (Request None (Some initialize_body))
             (SdkResult (Some b_uuid) false) in
  transports (exec cfg0 l s_open).1 !! a_uuid = Some 0 ∧
  heap (exec cfg0 l s_open).1 !! 0 = heap s_open !! 0.
Proof.
  intros l.
  apply (registry_entry_kept cfg0 tr_open s_open l a_uuid 0 run_open).
  - reflexivity.
  - reflexivity.
  - discriminate.
  - discriminate.
Defined.

Lemma later_ended : later cfg0 s_open s_ended.
Proof.
  exact (later_step cfg0 s_open s_open end_a (later_refl cfg0 s_open) eq_refl).
Defined.

Lemma binding_is_stable_witness :
  (transports s_ended !! a_uuid = Some 0 ∨
   transports s_ended !! a_uuid = None ∧ closed_with s_ended 0 a_uuid) ∧
  (∀ t', transports s_ended !! a_uuid = Some t' → t' = 0).
Proof.
  apply (binding_is_stable cfg0 tr_open s_open s_ended a_uuid 0 run_open).
  - reflexivity.
  - exact later_ended.
Defined.

Lemma delegated_transport_is_live_witness :
  transports s_open !! a_uuid = Some 0 ∧
  (∃ T, heap s_open !! 0 = Some T ∧ sessionId T = Some a_uuid ∧ closed T = false) ∧
  @nil (string * string) = [].
Proof.
  apply (delegated_transport_is_live cfg0 tr_open s_open
           (GetMcp (Request (Some a_uuid) None) (SdkResult None false))
           a_uuid 0 [] run_open).
  - reflexivity.
  - reflexivity.
Defined.

Lemma no_session_id_no_session_witness :
  0 = length (heap init) ∧
  heap init !! 0 = None ∧
  ∃ req o, open_a = PostMcp req o ∧ is_initialize (body req) = true.
Proof.
  apply (no_session_id_no_session cfg0 open_a init 0 [("mcp-session-id", a_uuid)]).
  - reflexivity.
  - reflexivity.
Defined.

Lemma handleSessionRequest_only_removes_witness :
  let r := handleSessionRequest DELETE (Request (Some a_uuid) None)
             (SdkResult None true) s_open in
  length (heap r.1) = length (heap s_open) ∧
  (∀ k t, transports r.1 !! k = Some t → transports s_open !! k = Some t) ∧
  (∀ sid, known r.1 sid ↔ known s_open sid).
Proof.
  intros r.
  apply (handleSessionRequest_only_removes DELETE (Request (Some a_uuid) None)
           (SdkResult None true) s_open).
  discriminate.
Defined.

Lemma open_then_terminate_witness :
  let s1 := (post_mcp (Request None (Some initialize_body))
               (SdkResult (Some b_uuid) false) s_open).1 in
  let s2 := (handleSessionRequest DELETE (Request (Some b_uuid) None)
               (SdkResult None true) s1).1 in
  transports s1 !! b_uuid = Some (length (heap s_open)) ∧
  obj_keys_length (transports s1) = S (obj_keys_length (transports s_open)) ∧
  transports s2 = transports s_open ∧
  heap s2 = (heap s_open ++ [Transport (Some b_uuid) true])%list.
Proof.
  apply (open_then_terminate cfg0 tr_open s_open
           (Request None (Some initialize_body)) (Request (Some b_uuid) None)
           b_uuid run_open).
  - reflexivity.
  - reflexivity.
  - reflexivity.
  - reflexivity.
Defined.

Lemma registry_keys_witness :
  uuid_shaped a_uuid = true ∧ a_uuid ≠ "" ∧ (a_uuid ∉ object_prototype_names) ∧
  obj_get (transports s_open) a_uuid = Some (Own 0) ∧
  0 < length (heap s_open) ∧
  (∀ k', transports s_open !! k' = Some 0 → k' = a_uuid).
Proof.
  apply (registry_keys cfg0 tr_open s_open a_uuid 0 run_open). reflexivity.
Defined.

Lemma listen_port_default_witness :
  listen_port (Some "8080") 3000 = PortEnv "8080" ∧
  listen_port (Some "") 3000 = PortDefault 3000.
Proof.
  split.
  - apply (listen_port_default (Some "8080") 3000); [reflexivity|discriminate].
  - apply (listen_port_default (Some "") 3000). right. reflexivity.
Defined.

Lemma close_evicts_exactly_witness :
  (transports (sdk_close 0 s_open) = delete a_uuid (transports s_open) ∧
   obj_keys_length (transports (sdk_close 0 s_open))
   = pred (obj_keys_length (transports s_open))) ∧
  transports (sdk_close 0 s_ended) = transports s_ended.
Proof.
  split.
  - apply (close_evicts_exactly cfg0 tr_open s_open 0 run_open). reflexivity.
  - apply (close_evicts_exactly cfg0 tr_ended s_ended 0 run_ended).
    intros k. change (transports s_ended) with (∅ : gmap string nat).
    rewrite lookup_empty. discriminate.
Defined.
